(** * CompleteSecurity: the session verification wizard

    A shallow embedding of [CompleteSecurity] (a React class component of
    matrix-react-sdk) and of the asynchronous machinery its handlers run
    on, followed by the properties of its phase machine.

    The handlers are written as terms of a small continuation-passing
    monad [Proc], one constructor per primitive the source uses
    ([this.setState], [await], [new Promise], [accessSecretStorage], the
    event-emitter calls [on] and [off], ...).  A handler runs synchronously
    up to its next [await] ([exec]); what is suspended there is parked in a
    pool and resumed by a later event of the environment ([step]).

    Three smaller components follow, each in a module of its own, as
    functions on their state: [SharedRooms] (UserInfoSharedRooms),
    [Keywords] (MentionsKeywordsSection and its editor) and
    [ProfileSettings].  All definitions come first, the theorems after
    them.  *)

From stdpp Require Import base numbers strings list gmap.

(** ** Values of the host language *)

(** The errors the handlers can see.  [AccessCancelledError] is the class
    imported from CrossSigningManager; [TypeError] is what reading a
    property of [null] throws. *)
Inductive Error : Type :=
  | AccessCancelledError
  | TypeError
  | OtherError (msg : string).

(** [e instanceof AccessCancelledError] *)
Definition instanceof_AccessCancelledError (e : Error) : bool :=
  match e with
  | AccessCancelledError => true
  | _ => false
  end.

(** The JavaScript values that flow through the wizard: a key-backup
    descriptor is an object or [null], a cross-signing id is a string or
    [null]. *)
Inductive Value : Type :=
  | VUndefined
  | VNull
  | VString (s : string)
  | VObject (name : string).

Definition is_empty (s : string) : bool :=
  match s with
  | EmptyString => true
  | String _ _ => false
  end.

(** Truthiness, as [if (v)] tests it. *)
Definition truthy (v : Value) : bool :=
  match v with
  | VUndefined | VNull => false
  | VString s => negb (is_empty s)
  | VObject _ => true
  end.

(** A [VerificationRequest] of the client SDK: an object (identified by
    [req_id]) that carries the id of the counterpart user.  Its mutable
    [cancelled] flag and its change listeners live in the environment. *)
Record Request : Type := mkRequest {
  req_id : nat;
  otherUserId : string;
}.

Global Instance Error_eq_dec : EqDecision Error.
Proof. solve_decision. Defined.
Global Instance Value_eq_dec : EqDecision Value.
Proof. solve_decision. Defined.
Global Instance Request_eq_dec : EqDecision Request.
Proof. solve_decision. Defined.

(** ** The component state *)

Definition PHASE_INTRO : Z := 0%Z.
Definition PHASE_BUSY : Z := 1%Z.
Definition PHASE_DONE : Z := 2%Z.
Definition PHASE_CONFIRM_SKIP : Z := 3%Z.

(** [this.state] *)
Record State : Type := mkState {
  phase : Z;
  verificationRequest : option Request;
  backupInfo : Value;
}.

(** The object given to [this.setState]: each call of the source sets one
    key. *)
Inductive Patch : Type :=
  | PatchPhase (p : Z)
  | PatchVerificationRequest (r : option Request)
  | PatchBackupInfo (v : Value).

Definition apply_patch (p : Patch) (s : State) : State :=
  match p with
  | PatchPhase ph => mkState ph (verificationRequest s) (backupInfo s)
  | PatchVerificationRequest r => mkState (phase s) r (backupInfo s)
  | PatchBackupInfo v => mkState (phase s) (verificationRequest s) v
  end.

(** The state the constructor assigns. *)
Definition initial_state : State :=
  mkState PHASE_INTRO None VNull.

(** ** External collaborators *)

(** The asynchronous calls the wizard awaits. *)
Inductive AsyncCall : Type :=
  | GetKeyBackupVersion
  | CheckOwnCrossSigningTrust
  | RestoreKeyBackupWithSecretStorage (backup : Value)
  | Accept (r : Request).

(** Everything the handlers do that is visible outside the component, in
    the order it happens (the trace keeps the newest entry first). *)
Inductive Effect : Type :=
  | ESetState (p : Patch)
  | ECall (c : AsyncCall)
  | EAccessSecretStorage
  | EResolve (p : nat)
  | EReject (p : nat) (e : Error)
  | EConsoleError (e : Error)
  | EConsoleLog (e : Error)
  | EOn (r : Request)
  | EOff (r : Request)
  | EClientOn
  | EClientRemoveListener
  | EOnFinished
  | EUncaught (e : Error)
  | EAccessRejected (e : Error).

(** What the synchronous questions to the collaborators answer at the
    moment: [MatrixClientPeg.get().getUserId()], [cli.getCrossSigningId()],
    [request.cancelled], and whether a call of [accessSecretStorage] throws
    before it returns its promise. *)
Record Env : Type := mkEnv {
  userId : string;
  crossSigningId : Value;
  cancelledRequests : list Request;
  accessThrows : option Error;
}.

Definition is_cancelled (e : Env) (r : Request) : bool :=
  bool_decide (r ∈ cancelledRequests e).

(** ** Handlers as processes *)

(** One constructor per primitive of the source.  A continuation that
    takes [Error + Value] receives the settlement of the awaited promise;
    [AccessSecretStorage cb k] hands the callback [cb] to the accessor and
    continues with [k (Some e)] when the call throws [e] synchronously. *)
Inductive Proc : Type :=
  | Return
  | Throw (e : Error)
  | GetState (k : State → Proc)
  | SetState (p : Patch) (k : Proc)
  | Emit (e : Effect) (k : Proc)
  | GetUserId (k : string → Proc)
  | GetCrossSigningId (k : Value → Proc)
  | Cancelled (r : Request) (k : bool → Proc)
  | Await (c : AsyncCall) (k : Error + Value → Proc)
  | NewPromise (k : nat → Proc)
  | Resolve (p : nat) (k : Proc)
  | Reject (p : nat) (e : Error) (k : Proc)
  | AwaitPromise (p : nat) (k : Error + Value → Proc)
  | AccessSecretStorage (cb : Proc) (k : option Error → Proc)
  | On (r : Request) (k : Proc)
  | Off (r : Request) (k : Proc)
  | ClientOn (k : Proc)
  | ClientRemoveListener (k : Proc).

(** [p; q]: [q] runs when [p] completes normally. *)
Fixpoint chain (p q : Proc) : Proc :=
  match p with
  | Return => q
  | Throw e => Throw e
  | GetState k => GetState (λ s, chain (k s) q)
  | SetState pa k => SetState pa (chain k q)
  | Emit e k => Emit e (chain k q)
  | GetUserId k => GetUserId (λ u, chain (k u) q)
  | GetCrossSigningId k => GetCrossSigningId (λ v, chain (k v) q)
  | Cancelled r k => Cancelled r (λ b, chain (k b) q)
  | Await c k => Await c (λ r, chain (k r) q)
  | NewPromise k => NewPromise (λ n, chain (k n) q)
  | Resolve n k => Resolve n (chain k q)
  | Reject n e k => Reject n e (chain k q)
  | AwaitPromise n k => AwaitPromise n (λ r, chain (k r) q)
  | AccessSecretStorage cb k => AccessSecretStorage cb (λ r, chain (k r) q)
  | On r k => On r (chain k q)
  | Off r k => Off r (chain k q)
  | ClientOn k => ClientOn (chain k q)
  | ClientRemoveListener k => ClientRemoveListener (chain k q)
  end.

(** [try { p } catch (e) { h e }], also across the awaits of [p]. *)
Fixpoint try_catch (p : Proc) (h : Error → Proc) : Proc :=
  match p with
  | Return => Return
  | Throw e => h e
  | GetState k => GetState (λ s, try_catch (k s) h)
  | SetState pa k => SetState pa (try_catch k h)
  | Emit e k => Emit e (try_catch k h)
  | GetUserId k => GetUserId (λ u, try_catch (k u) h)
  | GetCrossSigningId k => GetCrossSigningId (λ v, try_catch (k v) h)
  | Cancelled r k => Cancelled r (λ b, try_catch (k b) h)
  | Await c k => Await c (λ r, try_catch (k r) h)
  | NewPromise k => NewPromise (λ n, try_catch (k n) h)
  | Resolve n k => Resolve n (try_catch k h)
  | Reject n e k => Reject n e (try_catch k h)
  | AwaitPromise n k => AwaitPromise n (λ r, try_catch (k r) h)
  | AccessSecretStorage cb k =>
      AccessSecretStorage cb (λ r, try_catch (k r) h)
  | On r k => On r (try_catch k h)
  | Off r k => Off r (try_catch k h)
  | ClientOn k => ClientOn (try_catch k h)
  | ClientRemoveListener k => ClientRemoveListener (try_catch k h)
  end.

(** [const x = await c; k x]: a rejection is thrown at the await. *)
Definition await (c : AsyncCall) (k : Value → Proc) : Proc :=
  Await c (λ r, match r with inl e => Throw e | inr v => k v end).

(** [await p] on a promise of the wizard's own. *)
Definition await_promise (p : nat) (k : Value → Proc) : Proc :=
  AwaitPromise p (λ r, match r with inl e => Throw e | inr v => k v end).

(** [new Promise(executor)]: the executor runs at once, and an exception
    that escapes it rejects the promise. *)
Definition new_Promise (executor : nat → Proc) (k : nat → Proc) : Proc :=
  NewPromise (λ p,
    chain (try_catch (executor p) (λ e, Reject p e Return)) (k p)).

(** [accessSecretStorage(cb)] as a statement: a synchronous exception of
    the call is thrown here; the promise it returns is dropped. *)
Definition accessSecretStorage (cb : Proc) : Proc :=
  AccessSecretStorage cb
    (λ r, match r with Some e => Throw e | None => Return end).

Definition when (b : bool) (p : Proc) : Proc := if b then p else Return.

Declare Scope proc_scope.
Delimit Scope proc_scope with proc.
Bind Scope proc_scope with Proc.
Notation "p ;; q" := (chain p q)
  (at level 100, q at level 200, right associativity) : proc_scope.
Notation "'setState' p" := (SetState p Return) (at level 10) : proc_scope.
Notation "'console_error' e" := (Emit (EConsoleError e) Return)
  (at level 10) : proc_scope.
Notation "'console_log' e" := (Emit (EConsoleLog e) Return)
  (at level 10) : proc_scope.

Local Open Scope proc_scope.

(** *** The handlers of the component *)

(** The async arrow function handed to [accessSecretStorage] (lines
    76-85); [resolve] is the resolver of promise [p]. *)
Definition access_callback (p : nat) (backupInfo : Value) : Proc :=
  await CheckOwnCrossSigningTrust (λ _,
  Resolve p (
  when (truthy backupInfo)
    (await (RestoreKeyBackupWithSecretStorage backupInfo) (λ _, Return)))).

Definition _onUsePassphraseClick : Proc :=
  setState (PatchPhase PHASE_BUSY) ;;
  try_catch
    (await GetKeyBackupVersion (λ backupInfo,
     setState (PatchBackupInfo backupInfo) ;;
     new_Promise
       (λ p,
          try_catch
            (accessSecretStorage (access_callback p backupInfo))
            (λ e, console_error e ;; Reject p e Return))
       (λ p,
          await_promise p (λ _,
          GetCrossSigningId (λ id,
          when (truthy id) (setState (PatchPhase PHASE_DONE)))))))
    (λ e,
       when (negb (instanceof_AccessCancelledError e)) (console_log e) ;;
       setState (PatchPhase PHASE_INTRO)).

Definition onVerificationRequest (request : Request) : Proc :=
  GetUserId (λ uid,
  if negb (String.eqb (otherUserId request) uid) then Return else
  GetState (λ s,
  match verificationRequest s with
  | Some old => Off old Return
  | None => Return
  end ;;
  await (Accept request) (λ _,
  On request (
  setState (PatchVerificationRequest (Some request)))))).

Definition onVerificationRequestChange : Proc :=
  GetState (λ s,
  match verificationRequest s with
  | None => Throw TypeError
  | Some r =>
      Cancelled r (λ c,
      when c (
        GetState (λ s',
        match verificationRequest s' with
        | None => Throw TypeError
        | Some r' => Off r' (setState (PatchVerificationRequest None))
        end)))
  end).

Definition onSkipClick : Proc := setState (PatchPhase PHASE_CONFIRM_SKIP).

Definition onSkipConfirmClick : Proc := Emit EOnFinished Return.

Definition onSkipBackClick : Proc := setState (PatchPhase PHASE_INTRO).

Definition onDoneClick : Proc := Emit EOnFinished Return.

(** The tail of the constructor: the listener on the client. *)
Definition constructor : Proc := ClientOn Return.

(** [client] is the answer of the test of line 52, whether
    [MatrixClientPeg.get()] is non-null when the component unmounts: this
    is the one place where the source tests it.  Everywhere else (lines
    45, 61, 109 and 167) the source dereferences it untested, and the
    model covers the runs in which it is there. *)
Definition componentWillUnmount (client : bool) : Proc :=
  GetState (λ s,
  match verificationRequest s with
  | Some r => Off r Return
  | None => Return
  end ;;
  when client (ClientRemoveListener Return)).

(** ** The machine the handlers run on *)

(** A promise created by the component with [new Promise]. *)
Inductive Promise : Type :=
  | Unsettled
  | Fulfilled
  | RejectedWith (e : Error).

(** What is parked until the environment acts: a handler suspended at an
    [await] of an external call, a handler suspended at an [await] of one
    of the component's promises, and a callback the accessor holds and has
    not invoked yet. *)
Inductive Pending : Type :=
  | PExt (c : AsyncCall) (k : Error + Value → Proc)
  | PProm (p : nat) (k : Error + Value → Proc)
  | PCallback (cb : Proc).

(** The component and what surrounds it.  [subs] lists the requests on
    whose change stream [onVerificationRequestChange] is attached, one
    entry per attachment; [listening] says whether
    [onVerificationRequest] is attached to the client. *)
Record Sys : Type := mkSys {
  st : State;
  env : Env;
  subs : list Request;
  listening : bool;
  mounted : bool;
  trace : list Effect;
  proms : gmap nat Promise;
  pool : gmap nat Pending;
  fresh : nat;
}.

Definition emit (e : Effect) (s : Sys) : Sys :=
  mkSys (st s) (env s) (subs s) (listening s) (mounted s)
        (e :: trace s) (proms s) (pool s) (fresh s).

(** [this.setState(patch)].  No handler reads [this.state] between a
    [setState] and its next suspension, so React's batching inside click
    handlers is not observable and the merge is applied at once. *)
Definition set_state (pa : Patch) (s : Sys) : Sys :=
  mkSys (apply_patch pa (st s)) (env s) (subs s) (listening s) (mounted s)
        (ESetState pa :: trace s) (proms s) (pool s) (fresh s).

Definition set_env (e : Env) (s : Sys) : Sys :=
  mkSys (st s) e (subs s) (listening s) (mounted s)
        (trace s) (proms s) (pool s) (fresh s).

Definition set_listening (b : bool) (s : Sys) : Sys :=
  mkSys (st s) (env s) (subs s) b (mounted s)
        (trace s) (proms s) (pool s) (fresh s).

Definition set_mounted (b : bool) (s : Sys) : Sys :=
  mkSys (st s) (env s) (subs s) (listening s) b
        (trace s) (proms s) (pool s) (fresh s).

(** [removeListener] drops one attachment of the listener, if there is
    one. *)
Fixpoint remove_one (r : Request) (l : list Request) : list Request :=
  match l with
  | [] => []
  | x :: l' => if decide (x = r) then l' else x :: remove_one r l'
  end.

(** [request.on("change", this.onVerificationRequestChange)] *)
Definition subscribe (r : Request) (s : Sys) : Sys :=
  mkSys (st s) (env s) (r :: subs s) (listening s) (mounted s)
        (EOn r :: trace s) (proms s) (pool s) (fresh s).

(** [request.off("change", this.onVerificationRequestChange)] *)
Definition unsubscribe (r : Request) (s : Sys) : Sys :=
  mkSys (st s) (env s) (remove_one r (subs s)) (listening s) (mounted s)
        (EOff r :: trace s) (proms s) (pool s) (fresh s).

(** Park a suspended computation under a fresh id. *)
Definition park (w : Pending) (s : Sys) : Sys :=
  mkSys (st s) (env s) (subs s) (listening s) (mounted s)
        (trace s) (proms s) (<[fresh s := w]> (pool s)) (S (fresh s)).

Definition unpark (t : nat) (s : Sys) : Sys :=
  mkSys (st s) (env s) (subs s) (listening s) (mounted s)
        (trace s) (proms s) (delete t (pool s)) (fresh s).

Definition new_promise (s : Sys) : Sys :=
  mkSys (st s) (env s) (subs s) (listening s) (mounted s)
        (trace s) (<[fresh s := Unsettled]> (proms s)) (pool s) (S (fresh s)).

(** [resolve()] and [reject(e)] settle a promise once; later calls do
    nothing. *)
Definition settle (n : nat) (o : Promise) (s : Sys) : Sys :=
  mkSys (st s) (env s) (subs s) (listening s) (mounted s) (trace s)
        match proms s !! n with
        | Some Unsettled => <[n := o]> (proms s)
        | _ => proms s
        end
        (pool s) (fresh s).

(** Run a process up to its completion or its next suspension.  An
    exception that nothing catches is recorded as [EUncaught]. *)
Fixpoint exec (p : Proc) (s : Sys) : Sys :=
  match p with
  | Return => s
  | Throw e => emit (EUncaught e) s
  | GetState k => exec (k (st s)) s
  | SetState pa k => exec k (set_state pa s)
  | Emit e k => exec k (emit e s)
  | GetUserId k => exec (k (userId (env s))) s
  | GetCrossSigningId k => exec (k (crossSigningId (env s))) s
  | Cancelled r k => exec (k (is_cancelled (env s) r)) s
  | Await c k => park (PExt c k) (emit (ECall c) s)
  | NewPromise k => exec (k (fresh s)) (new_promise s)
  | Resolve n k => exec k (settle n Fulfilled (emit (EResolve n) s))
  | Reject n e k => exec k (settle n (RejectedWith e) (emit (EReject n e) s))
  | AwaitPromise n k => park (PProm n k) s
  | AccessSecretStorage cb k =>
      match accessThrows (env s) with
      | Some e => exec (k (Some e)) (emit EAccessSecretStorage s)
      | None =>
          exec (k None) (park (PCallback cb) (emit EAccessSecretStorage s))
      end
  | On r k => exec k (subscribe r s)
  | Off r k => exec k (unsubscribe r s)
  | ClientOn k => exec k (set_listening true (emit EClientOn s))
  | ClientRemoveListener k =>
      exec k (set_listening false (emit EClientRemoveListener s))
  end.

(** ** Rendering *)

Inductive Icon : Type := IconWarning | IconVerified.

(** The buttons a body shows; each is bound to one handler. *)
Inductive Action : Type :=
  | UsePassphrase
  | Skip
  | SkipConfirm
  | SkipBack
  | Done
  | PanelClose.

Inductive Body : Type :=
  | EncryptionPanel (r : Request)
  | IntroBody
  | DoneBody (with_backup : bool)
  | ConfirmSkipBody
  | Spinner.

Record View : Type := mkView {
  icon : option Icon;
  title : option string;
  body : Body;
}.

Global Instance Action_eq_dec : EqDecision Action.
Proof. solve_decision. Defined.

(** The chain of [else if] on the phase (lines 171-264). *)
Definition phase_view (ph : Z) (backup : Value) : Error + View :=
  if (ph =? PHASE_INTRO)%Z then
    inr (mkView (Some IconWarning) (Some "Complete security"%string) IntroBody)
  else if (ph =? PHASE_DONE)%Z then
    inr (mkView (Some IconVerified) (Some "Session verified"%string)
                (DoneBody (truthy backup)))
  else if (ph =? PHASE_CONFIRM_SKIP)%Z then
    inr (mkView (Some IconWarning) (Some "Are you sure?"%string)
                ConfirmSkipBody)
  else if (ph =? PHASE_BUSY)%Z then
    inr (mkView (Some IconWarning) (Some "Complete security"%string) Spinner)
  else
    inl (OtherError "Unknown phase").

(** [render()]: a stored request takes the body over, and then no icon and
    no title are set. *)
Definition render (s : State) : Error + View :=
  match verificationRequest s with
  | Some r => inr (mkView None None (EncryptionPanel r))
  | None => phase_view (phase s) (backupInfo s)
  end.

(** The [onClick] and [onClose] props of each body. *)
Definition buttons (b : Body) : list Action :=
  match b with
  | EncryptionPanel _ => [PanelClose]
  | IntroBody => [UsePassphrase; Skip]
  | DoneBody _ => [Done]
  | ConfirmSkipBody => [SkipConfirm; SkipBack]
  | Spinner => []
  end.

Definition handler (a : Action) : Proc :=
  match a with
  | UsePassphrase => _onUsePassphraseClick
  | Skip => onSkipClick
  | SkipConfirm => onSkipConfirmClick
  | SkipBack => onSkipBackClick
  | Done => onDoneClick
  | PanelClose => Emit EOnFinished Return
  end.

(** A button can be clicked when the mounted component shows it. *)
Definition clickable (a : Action) (s : Sys) : bool :=
  mounted s &&
  match render (st s) with
  | inr v => bool_decide (a ∈ buttons (body v))
  | inl _ => false
  end.

(** ** Events and steps *)

(** What can happen to the component.  The accessor either invokes the
    callback it holds, once, and its promise then follows the callback's,
    or its promise rejects with the callback never invoked.  The component
    is unmounted with the client still there ([EvUnmount]) or after the
    client is gone ([EvUnmountWithoutClient]). *)
Inductive Event : Type :=
  | EvEnv (e : Env)
  | EvClick (a : Action)
  | EvVerificationRequest (r : Request)
  | EvChange (r : Request)
  | EvSettle (t : nat) (res : Error + Value)
  | EvResume (t : nat)
  | EvAccessInvoke (t : nat)
  | EvAccessReject (t : nat) (e : Error)
  | EvUnmount
  | EvUnmountWithoutClient.


(** The callback as the accessor runs it: a rejection of the callback
    rejects the accessor's own promise, which nothing observes. *)
Definition invoked (cb : Proc) : Proc :=
  try_catch cb (λ e, Emit (EAccessRejected e) Return).

(** One step; [None] when the event cannot happen in this state. *)
Definition step (s : Sys) (ev : Event) : option Sys :=
  match ev with
  | EvEnv e => Some (set_env e s)
  | EvClick a =>
      if clickable a s then Some (exec (handler a) s) else None
  | EvVerificationRequest r =>
      if listening s then Some (exec (onVerificationRequest r) s) else None
  | EvChange r =>
      if bool_decide (r ∈ subs s)
      then Some (exec onVerificationRequestChange s) else None
  | EvSettle t res =>
      match pool s !! t with
      | Some (PExt _ k) => Some (exec (k res) (unpark t s))
      | _ => None
      end
  | EvResume t =>
      match pool s !! t with
      | Some (PProm p k) =>
          match proms s !! p with
          | Some Fulfilled => Some (exec (k (inr VUndefined)) (unpark t s))
          | Some (RejectedWith e) => Some (exec (k (inl e)) (unpark t s))
          | _ => None
          end
      | _ => None
      end
  | EvAccessInvoke t =>
      match pool s !! t with
      | Some (PCallback cb) => Some (exec (invoked cb) (unpark t s))
      | _ => None
      end
  | EvAccessReject t e =>
      match pool s !! t with
      | Some (PCallback _) => Some (emit (EAccessRejected e) (unpark t s))
      | _ => None
      end
  | EvUnmount =>
      if mounted s
      then Some (set_mounted false (exec (componentWillUnmount true) s))
      else None
  | EvUnmountWithoutClient =>
      if mounted s
      then Some (set_mounted false (exec (componentWillUnmount false) s))
      else None
  end.

Fixpoint run (s : Sys) (evs : list Event) : option Sys :=
  match evs with
  | [] => Some s
  | ev :: evs' =>
      match step s ev with
      | Some s' => run s' evs'
      | None => None
      end
  end.

(** The component right after its constructor ran. *)
Definition mount (e : Env) : Sys :=
  exec constructor (mkSys initial_state e [] false true [] ∅ ∅ 0).

Inductive reachable : Sys → Prop :=
  | reachable_mount e : reachable (mount e)
  | reachable_step s ev s' :
      reachable s → step s ev = Some s' → reachable s'.

(** ** Observations on traces *)

(** How often the parent's completion callback was invoked. *)
Fixpoint onFinished_calls (tr : list Effect) : nat :=
  match tr with
  | [] => 0
  | EOnFinished :: tr' => S (onFinished_calls tr')
  | _ :: tr' => onFinished_calls tr'
  end.

(** What was written to the console, newest first. *)
Fixpoint console (tr : list Effect) : list Effect :=
  match tr with
  | [] => []
  | EConsoleError e :: tr' => EConsoleError e :: console tr'
  | EConsoleLog e :: tr' => EConsoleLog e :: console tr'
  | _ :: tr' => console tr'
  end.

(** The phases given to [setState], newest first. *)
Fixpoint phase_writes (tr : list Effect) : list Z :=
  match tr with
  | [] => []
  | ESetState (PatchPhase ph) :: tr' => ph :: phase_writes tr'
  | _ :: tr' => phase_writes tr'
  end.

(** ** What a process may do *)

(** [confined ok_patch may_settle p]: every state update of [p], in
    whatever branch and after whatever await, satisfies [ok_patch], and
    [p] creates or settles promises only if [may_settle]. *)
Section Confined.

Variable ok_patch : Patch → Prop.
Variable may_settle : Prop.

Definition ok_effect (e : Effect) : Prop :=
  match e with
  | ESetState pa => ok_patch pa
  | _ => True
  end.

Fixpoint confined (p : Proc) : Prop :=
  match p with
  | Return | Throw _ => True
  | GetState k => ∀ s, confined (k s)
  | SetState pa k => ok_patch pa ∧ confined k
  | Emit e k => ok_effect e ∧ confined k
  | GetUserId k => ∀ u, confined (k u)
  | GetCrossSigningId k => ∀ v, confined (k v)
  | Cancelled _ k => ∀ b, confined (k b)
  | Await _ k => ∀ r, confined (k r)
  | NewPromise k => may_settle ∧ ∀ n, confined (k n)
  | Resolve _ k => may_settle ∧ confined k
  | Reject _ _ k => may_settle ∧ confined k
  | AwaitPromise _ k => ∀ r, confined (k r)
  | AccessSecretStorage cb k => confined cb ∧ ∀ r, confined (k r)
  | On _ k | Off _ k | ClientOn k | ClientRemoveListener k => confined k
  end.

Definition pending_confined (w : Pending) : Prop :=
  match w with
  | PExt _ k => ∀ r, confined (k r)
  | PProm _ k => ∀ r, confined (k r)
  | PCallback cb => confined cb
  end.

End Confined.

(** The four phases of the source. *)
Definition valid_phase (ph : Z) : Prop :=
  ph = PHASE_INTRO ∨ ph = PHASE_BUSY ∨ ph = PHASE_DONE
  ∨ ph = PHASE_CONFIRM_SKIP.

Definition safe_patch (pa : Patch) : Prop :=
  match pa with
  | PatchPhase ph => valid_phase ph
  | _ => True
  end.

(** A process that stores known phases only. *)
Definition phase_safe : Proc → Prop := confined safe_patch True.

(** The phase stored, every phase ever given to [setState], and every
    phase a parked computation may still store, are known. *)
Definition phase_inv (s : Sys) : Prop :=
  valid_phase (phase (st s))
  ∧ Forall valid_phase (phase_writes (trace s))
  ∧ map_Forall (λ _ w, pending_confined safe_patch True w) (pool s).

Definition no_phase (pa : Patch) : Prop :=
  match pa with
  | PatchPhase _ => False
  | _ => True
  end.

(** A process that leaves the phase and the component's promises alone. *)
Definition inert : Proc → Prop := confined no_phase False.

(** Nothing that is parked can change the phase. *)
Definition idle (s : Sys) : Prop :=
  map_Forall (λ _ w, pending_confined no_phase False w) (pool s).

(** A parked computation that cannot change the phase: it is inert, or it
    waits for a promise that is not settled. *)
Definition pending_calm (s : Sys) (w : Pending) : Prop :=
  match w with
  | PProm n k => proms s !! n = Some Unsettled ∨ ∀ r, inert (k r)
  | _ => pending_confined no_phase False w
  end.

(** The wizard shows the spinner and nothing parked can end that. *)
Definition calm (s : Sys) : Prop :=
  phase (st s) = PHASE_BUSY
  ∧ map_Forall (λ _ w, pending_calm s w) (pool s).

(** ** Sample data *)

(** Environments and requests used to instantiate the theorems. *)
Definition sample_env : Env :=
  mkEnv "@alice:example.org" (VString "master-key") [] None.

Definition sample_backup : Value := VObject "backup-v1".

(** The call of the accessor throws the cancellation error. *)
Definition cancelling_env : Env :=
  mkEnv "@alice:example.org" VNull [] (Some AccessCancelledError).

(** The client reports no cross-signing id. *)
Definition no_identity_env : Env :=
  mkEnv "@alice:example.org" VNull [] None.

Definition sample_request : Request := mkRequest 1 "@alice:example.org".

Definition foreign_request : Request := mkRequest 2 "@mallory:example.org".

Definition second_request : Request := mkRequest 3 "@alice:example.org".

(** The first sample request has been cancelled. *)
Definition cancelled_env : Env :=
  mkEnv "@alice:example.org" (VString "master-key") [sample_request] None.

(** What [render] returns in the Intro phase. *)
Definition intro_view : View :=
  mkView (Some IconWarning) (Some "Complete security"%string) IntroBody.

(** ** Subscriptions in step with the state *)

(** The change listener is attached to the stored request and to nothing
    else. *)
Definition tidy (s : Sys) : Prop :=
  subs s =
  match verificationRequest (st s) with
  | Some r => [r]
  | None => []
  end.

(** The state a run ends in ([s] itself if the run is not possible). *)
Definition after (evs : list Event) (s : Sys) : Sys :=
  default s (run s evs).

(** A request of the own user is accepted and shown. *)
Definition panel_state : Sys :=
  after [EvVerificationRequest sample_request; EvSettle 0 (inr VUndefined)]
        (mount sample_env).

(** Two overlapping requests, the second of which is then cancelled: no
    request is stored, and the first is still listened to. *)
Definition leaked_state : Sys :=
  after [EvVerificationRequest sample_request;
         EvVerificationRequest second_request;
         EvSettle 0 (inr VUndefined);
         EvSettle 1 (inr VUndefined);
         EvEnv (mkEnv "@alice:example.org" VNull [second_request] None);
         EvChange second_request]
        (mount sample_env).

(** * UserInfoSharedRooms: the rooms shared with a user *)

Module SharedRooms.

Definition LIMITED_VIEW_SHOW_COUNT : nat := 3.

Record Props : Type := mkProps {
  userId : string;
  compact : bool;
}.

(** [this.state]; [roomIds] is undefined until the fetch has resolved. *)
Record State : Type := mkState {
  roomIds : option (list string);
  error : bool;
  showAll : bool;
}.

(** The state the constructor assigns. *)
Definition initial_state : State := mkState None false false.

(** What the component reads of a room of the client: whether it has a
    tombstone state event, and its canonical alias (a string or [null]). *)
Record Room : Type := mkRoom {
  roomId : string;
  tombstone : bool;
  canonicalAlias : option string;
}.

Inductive Effect : Type :=
  | EConsoleLog (msg : string)
  | ESetState.

(** [componentDidMount], once the fetch has settled with [res]. *)
Definition componentDidMount
    (p : Props) (res : Error + list string) (s : State)
    : State * list Effect :=
  match res with
  | inr ids => (mkState (Some ids) (error s) (showAll s), [ESetState])
  | inl _ =>
      (mkState (roomIds s) true (showAll s),
       [EConsoleLog ("Failed to get shared rooms for " +:+ userId p);
        ESetState])
  end.

Definition onShowMoreClick (s : State) : State * list Effect :=
  (mkState (roomIds s) (error s) true,
   [EConsoleLog "Showing more"; ESetState]).

(** A tile of the list: a pill linking to the alias in the compact view,
    a room tile otherwise. *)
Inductive Tile : Type :=
  | PillLink (alias : string) (room : Room)
  | RoomTileItem (room : Room).

Definition tile_room (t : Tile) : Room :=
  match t with
  | PillLink _ room => room
  | RoomTileItem room => room
  end.

(** [renderRoomTile]: [None] is the [null] of the source. *)
Definition renderRoomTile (p : Props) (room : option Room) : option Tile :=
  match room with
  | None => None
  | Some room =>
      if tombstone room then None
      else if compact p then
        match canonicalAlias room with
        | None => None
        | Some alias =>
            if is_empty alias then None else Some (PillLink alias room)
        end
      else Some (RoomTileItem room)
  end.

(** The value of [content]: an array of tiles or a single element. *)
Inductive Content : Type :=
  | Tiles (l : list Tile)
  | NoSharedRooms
  | FetchError
  | Loading.

(** [content.length]: the length of the array; an element has no such
    property, the [undefined] it yields is falsy like [0], and it is not
    used as a number in the branches an element reaches. *)
Definition content_length (c : Content) : nat :=
  match c with
  | Tiles l => length l
  | _ => 0
  end.

(** What [render] returns: the sentence of the compact view (lines 153
    and 155), the bare content (line 162), or the list with its header and
    the button to show more, labelled with a count (lines 167-175). *)
Inductive View : Type :=
  | CompactLine (c : Content)
  | CompactLineMore (c : Content) (hidden : nat)
  | CompactContent (c : Content)
  | Panel (c : Content) (showMore : option nat).

Section Client.

(** [MatrixClientPeg.get().getRoom] and the sorter of RoomListSorter. *)
Variable getRoom : string → option Room.
Variable mostRecentActivityFirst : list (option Room) → list (option Room).

(** [renderRoomTiles]: the tiles of the sorted rooms, without the
    [null]s. *)
Definition renderRoomTiles (p : Props) (ids : list string) : list Tile :=
  omap (renderRoomTile p) (mostRecentActivityFirst (map getRoom ids)).

Definition render (p : Props) (s : State) : View :=
  let '(content, realCount) :=
    match roomIds s with
    | Some (id :: ids) =>
        let tiles := renderRoomTiles p (id :: ids) in
        (Tiles (if showAll s then tiles
                else take LIMITED_VIEW_SHOW_COUNT tiles),
         length tiles)
    | Some [] => (NoSharedRooms, 0)
    | None => (if error s then FetchError else Loading, 0)
    end in
  if compact p && (0 <? content_length content) then
    if realCount <=? content_length content
    then CompactLine content
    else CompactLineMore content (realCount - content_length content)
  else if compact p then CompactContent content
  else
    let canShowMore :=
      negb (showAll s) && (LIMITED_VIEW_SHOW_COUNT <? realCount) in
    Panel content
          (if canShowMore
           then Some (realCount - content_length content) else None).

End Client.

(** The tiles a view shows, and the number it announces as hidden. *)
Definition shown (v : View) : list Tile :=
  match v with
  | CompactLine c | CompactLineMore c _ | CompactContent c | Panel c _ =>
      match c with
      | Tiles l => l
      | _ => []
      end
  end.

Definition hidden (v : View) : nat :=
  match v with
  | CompactLineMore _ n => n
  | Panel _ (Some n) => n
  | _ => 0
  end.

(** A room that gets a tile. *)
Definition visible (p : Props) (room : Room) : bool :=
  negb (tombstone room)
  && (negb (compact p)
      || match canonicalAlias room with
         | Some alias => negb (is_empty alias)
         | None => false
         end).

(** Sample data: six shared rooms, one upgraded, one unknown to the
    client, one without an alias. *)
Definition sample_getRoom (id : string) : option Room :=
  if String.eqb id "!a" then Some (mkRoom "!a" false (Some "#a:example.org"))
  else if String.eqb id "!b" then Some (mkRoom "!b" true (Some "#b:example.org"))
  else if String.eqb id "!c" then Some (mkRoom "!c" false None)
  else if String.eqb id "!d" then Some (mkRoom "!d" false (Some "#d:example.org"))
  else if String.eqb id "!e" then Some (mkRoom "!e" false (Some "#e:example.org"))
  else if String.eqb id "!f" then Some (mkRoom "!f" false (Some "#f:example.org"))
  else None.

Definition sample_state : State :=
  mkState (Some ["!a"; "!b"; "!c"; "!d"; "!e"; "!f"]) false false.

End SharedRooms.

(** * MentionsKeywordsSection: the keywords of the notification settings *)

Module Keywords.

(** A content push rule, as far as the section reads it. *)
Record Rule : Type := mkRule {
  pattern : string;
  enabled : bool;
}.

(** What the section and the editor call. *)
Inductive Call : Type :=
  | AddKeyword (keyword : string)
  | RemoveKeyword (keyword : string)
  | AddKeywordRule (keyword : string) (keywordsEnabled soundEnabled : bool)
  | RemoveKeywordRule (keyword : string)
  | SetKeywordsEnabled (checked : bool)
  | UpdateContentRules (checked soundEnabled : bool).

(** [Array.from(new Set(l))]: the first occurrence of each element, in
    the order of [l]. *)
Fixpoint dedupe_from (seen l : list string) : list string :=
  match l with
  | [] => []
  | x :: l' =>
      if bool_decide (x ∈ seen) then dedupe_from seen l'
      else x :: dedupe_from (x :: seen) l'
  end.

Definition dedupe (l : list string) : list string := dedupe_from [] l.

(** *** The editor *)

(** The two [useState] cells of [KeywordsEditor]. *)
Record Editor : Type := mkEditor {
  value : string;
  keywords : list string;
}.

Inductive Key : Type := BACKSPACE | ENTER | OtherKey.

(** [e.key === k] *)
Definition is_key (k k' : Key) : bool :=
  match k, k' with
  | BACKSPACE, BACKSPACE | ENTER, ENTER | OtherKey, OtherKey => true
  | _, _ => false
  end.

Record KeyEvent : Type := mkKeyEvent {
  key : Key;
  ctrlKey : bool;
  shiftKey : bool;
  metaKey : bool;
  target_value : string;
}.

Definition _removeKeyword (keyword : string) (ed : Editor)
    : Editor * list Call :=
  (mkEditor (value ed) (filter (λ k, k ≠ keyword) (keywords ed)),
   [RemoveKeyword keyword]).

Definition onChange (v : string) (ed : Editor) : Editor * list Call :=
  (mkEditor v (keywords ed), []).

(** [onBlur] hands the raw text to the [addKeyword] of the props. *)
Definition onBlur (v : string) (ed : Editor) : Editor * list Call :=
  if negb (is_empty (value ed))
  then (mkEditor EmptyString (keywords ed), [AddKeyword v])
  else (ed, []).

Section Trim.

(** [String.prototype.trim] *)
Variable trim : string → string.

Definition _addKeyword (keyword : string) (ed : Editor)
    : Editor * list Call :=
  let keyword := trim keyword in
  if is_empty keyword || bool_decide (keyword ∈ keywords ed)
  then (ed, [])
  else (mkEditor (value ed) (keywords ed ++ [keyword]),
        [AddKeyword keyword]).

Definition onKeyDown (e : KeyEvent) (ed : Editor) : Editor * list Call :=
  if is_key (key e) BACKSPACE && is_empty (value ed)
     && (0 <? length (keywords ed))
     && negb (ctrlKey e) && negb (shiftKey e) && negb (metaKey e)
  then
    match last (keywords ed) with
    | Some k => _removeKeyword k ed
    | None => (ed, [])
    end
  else if is_key (key e) ENTER then
    let '(ed', calls) := _addKeyword (target_value e) ed in
    (mkEditor EmptyString (keywords ed'), calls)
  else (ed, []).

(** What the user can do to the editor: type, leave the field, press a
    key, or click the remove button of a pill that is shown. *)
Inductive Action : Type :=
  | Change (v : string)
  | Blur (v : string)
  | KeyDown (e : KeyEvent)
  | PillRemove (k : string).

Definition handle (a : Action) (ed : Editor) : option (Editor * list Call) :=
  match a with
  | Change v => Some (onChange v ed)
  | Blur v => Some (onBlur v ed)
  | KeyDown e => Some (onKeyDown e ed)
  | PillRemove k =>
      if bool_decide (k ∈ keywords ed)
      then Some (_removeKeyword k ed) else None
  end.

End Trim.

(** *** The section *)

Section Sort.

(** [Array.prototype.sort] with its default order. *)
Variable sort : list string → list string.

(** The keywords handed to the editor (lines 149-160). *)
Definition section_keywords (rules : list Rule) (keywordsEnabled : bool)
    : list string :=
  let rules :=
    if keywordsEnabled then filter (λ r, enabled r = true) rules
    else rules in
  let keywords := dedupe (map pattern rules) in
  if 0 <? length keywords then sort keywords else keywords.

Definition addKeyword (keywordsEnabled soundEnabled : bool)
    (keyword : string) : list Call :=
  [AddKeywordRule keyword keywordsEnabled soundEnabled].

Definition removeKeyword (keyword : string) : list Call :=
  [RemoveKeywordRule keyword].

Definition onKeywordsEnabledChange
    (rules : list Rule) (keywordsEnabled soundEnabled checked : bool)
    : list Call :=
  SetKeywordsEnabled checked ::
  if length (section_keywords rules keywordsEnabled) <? 1 then []
  else [UpdateContentRules checked soundEnabled].

End Sort.

(** The pills of an editor are distinct and none is empty. *)
Definition well_formed (ed : Editor) : Prop :=
  NoDup (keywords ed) ∧ Forall (λ k, k ≠ EmptyString) (keywords ed).

(** [trim] on the space character only, for the samples. *)
Fixpoint trim_left (s : string) : string :=
  match s with
  | String a s' =>
      if Ascii.eqb a (Ascii.ascii_of_nat 32) then trim_left s' else s
  | EmptyString => s
  end.

Definition sample_trim (s : string) : string :=
  String.rev (trim_left (String.rev (trim_left s))).

Definition sample_editor : Editor := mkEditor EmptyString ["alpha"; "beta"].

Definition sample_rules : list Rule :=
  [mkRule "beta" true; mkRule "alpha" true; mkRule "gamma" false;
   mkRule "beta" true].

End Keywords.

(** * ProfileSettings: display name and avatar *)

Module ProfileSettings.

(** [this.state].  A display name or an avatar URL is a string or
    [undefined]; [avatarFile] is a file (identified by a number) or
    [null]/[undefined], of which only the truthiness is read. *)
Record State : Type := mkState {
  userId : string;
  originalDisplayName : option string;
  displayName : option string;
  originalAvatarUrl : option string;
  avatarUrl : option string;
  avatarFile : option nat;
  enableProfileSave : bool;
}.

(** The calls on the client, and a rejection nothing handles. *)
Inductive Call : Type :=
  | SetDisplayName (name : option string)
  | UploadContent (file : nat)
  | SetAvatarUrl (uri : string)
  | Unhandled (e : Error).

Definition _removeAvatar (s : State) : State :=
  mkState (userId s) (originalDisplayName s) (displayName s)
          (originalAvatarUrl s) None None true.

Definition _onDisplayNameChanged (v : string) (s : State) : State :=
  mkState (userId s) (originalDisplayName s) (Some v)
          (originalAvatarUrl s) (avatarUrl s) (avatarFile s) true.

(** [_onAvatarChanged] when the dialog was closed without a file
    (lines 309-316). *)
Definition _onAvatarChanged_none (s : State) : State :=
  mkState (userId s) (originalDisplayName s) (displayName s)
          (originalAvatarUrl s) (originalAvatarUrl s) None false.

(** [reader.onload] for the file chosen (lines 320-326). *)
Definition _onAvatarChanged_loaded (file : nat) (dataUrl : string)
    (s : State) : State :=
  mkState (userId s) (originalDisplayName s) (displayName s)
          (originalAvatarUrl s) (Some dataUrl) (Some file) true.

(** Where [_saveProfile] is suspended, with what it has put into
    [newState] so far. *)
Inductive Pending : Type :=
  | AwaitSetDisplayName
  | AwaitUploadContent (newOriginalDisplayName : option (option string))
  | AwaitSetAvatarUrl (newOriginalDisplayName : option (option string))
                      (uri : string).

Section Client.

(** [client.mxcUrlToHttp(uri, 96, 96, 'crop', false)] *)
Variable mxcUrlToHttp : string → string.

(** [this.setState(newState)] of line 298. *)
Definition finish (newOriginalDisplayName : option (option string))
    (uri : option string) (s : State) : State :=
  let odn := default (originalDisplayName s) newOriginalDisplayName in
  match uri with
  | Some uri =>
      mkState (userId s) odn (displayName s)
              (Some (mxcUrlToHttp uri)) (Some (mxcUrlToHttp uri)) None
              (enableProfileSave s)
  | None =>
      mkState (userId s) odn (displayName s)
              (originalAvatarUrl s) (avatarUrl s) (avatarFile s)
              (enableProfileSave s)
  end.

(** Lines 290-298, entered with the [newState] built so far. *)
Definition save_avatar (newOriginalDisplayName : option (option string))
    (s : State) : State * list Call * option Pending :=
  match avatarFile s with
  | Some file =>
      (s, [UploadContent file],
       Some (AwaitUploadContent newOriginalDisplayName))
  | None => (finish newOriginalDisplayName None s, [], None)
  end.

(** [_saveProfile] up to its first suspension. *)
Definition _saveProfile (s : State) : State * list Call * option Pending :=
  if negb (enableProfileSave s) then (s, [], None)
  else
    let s := mkState (userId s) (originalDisplayName s) (displayName s)
                     (originalAvatarUrl s) (avatarUrl s) (avatarFile s)
                     false in
    if bool_decide (originalDisplayName s ≠ displayName s)
    then (s, [SetDisplayName (displayName s)], Some AwaitSetDisplayName)
    else save_avatar None s.

(** [_saveProfile] from a suspension to the next, when the awaited call
    has settled with [res]; [s] is the state at that moment. *)
Definition resume (w : Pending) (res : Error + string) (s : State)
    : State * list Call * option Pending :=
  match res with
  | inl e => (s, [Unhandled e], None)
  | inr v =>
      match w with
      | AwaitSetDisplayName => save_avatar (Some (displayName s)) s
      | AwaitUploadContent n =>
          (s, [SetAvatarUrl v], Some (AwaitSetAvatarUrl n v))
      | AwaitSetAvatarUrl n uri => (finish n (Some uri) s, [], None)
      end
  end.

End Client.

Definition sample_state : State :=
  mkState "@alice:example.org" (Some "Alice") (Some "Alice")
          None None None false.

End ProfileSettings.

(** ** Proof support *)

Arguments truthy : simpl never.
Arguments instanceof_AccessCancelledError : simpl never.
Arguments is_cancelled : simpl never.

Ltac map_step :=
  first
    [ rewrite lookup_insert_eq
    | rewrite lookup_insert_ne by lia
    | rewrite lookup_delete_ne by lia
    | rewrite lookup_delete_eq ].

(** Symbolic execution of a run: unfold the machine, then look the parked
    entries up. *)
Ltac crunch :=
  repeat first
    [ progress cbn
    | progress unfold park, unpark, emit, set_state, new_promise, settle,
        subscribe, unsubscribe, set_listening, set_mounted, set_env
    | map_step ].

Ltac open_sys s :=
  destruct s as [[?ph ?vr ?bi] [?uid ?cid ?canc ?acc] ?sb ?lis ?mnt ?tr ?pr ?po ?fr];
  cbn in *.

(** A membership test on a closed list of buttons is decided by
    evaluation. *)
Ltac button_shown :=
  match goal with
  | |- context [bool_decide (?a ∈ ?l)] =>
      change (bool_decide (a ∈ l)) with true
  end.

(** Bring a pool to the form of inserts over deletes. *)
Ltac pool_norm :=
  repeat first
    [ rewrite delete_insert_eq
    | rewrite delete_insert_ne by lia ].

(** In the Intro view the two links of the body can be clicked. *)
Lemma clickable_intro (a : Action) (s : Sys) :
  mounted s = true →
  phase (st s) = PHASE_INTRO →
  verificationRequest (st s) = None →
  a = UsePassphrase ∨ a = Skip →
  clickable a s = true.
Proof.
  intros Hm Hp Hv Ha. unfold clickable, render.
  rewrite Hm, Hv, Hp. cbn.
  destruct Ha as [-> | ->]; reflexivity.
Qed.

Lemma run_app (s : Sys) (l1 l2 : list Event) :
  run s (l1 ++ l2) =
  match run s l1 with
  | Some s' => run s' l2
  | None => None
  end.
Proof.
  revert s. induction l1 as [| ev l1 IH]; intros s; cbn; [done |].
  destruct (step s ev); [apply IH | done].
Qed.

(** ** The passphrase path *)

(** C1.  From the Intro view, clicking the passphrase link, the key-backup
    fetch resolving ([backup] may be [null]), the accessor returning
    normally and invoking its callback, the trust check resolving, and the
    client then reporting a (truthy) cross-signing id: the run exists and
    ends with the phase Done.  [t] is the id under which the first await of
    the handler is parked; the promise of line 74 gets [1 + t], the
    callback [2 + t], the handler's wait on the promise [3 + t] and the
    trust check [4 + t].  The environment may change before the accessor
    is called ([e1]) and before the identity is read ([e2]). *)
Theorem passphrase_success_ends_in_Done
    (s : Sys) (e1 e2 : Env) (backup v : Value) :
  mounted s = true →
  phase (st s) = PHASE_INTRO →
  verificationRequest (st s) = None →
  accessThrows e1 = None →
  truthy (crossSigningId e2) = true →
  let t := fresh s in
  ∃ s',
    run s [EvClick UsePassphrase;
           EvEnv e1; EvSettle t (inr backup);
           EvAccessInvoke (2 + t); EvSettle (4 + t) (inr v);
           EvEnv e2; EvResume (3 + t)] = Some s'
    ∧ phase (st s') = PHASE_DONE.
Proof.
  intros Hm Hp Hv Hacc Hid t. subst t.
  open_sys s. subst.
  destruct e1 as [uid1 cid1 canc1 acc1], e2 as [uid2 cid2 canc2 acc2].
  cbn in Hacc, Hid. subst acc1.
  unfold clickable. cbn. button_shown. crunch.
  destruct (truthy backup); crunch; rewrite Hid; crunch;
    (eexists; split; [reflexivity | reflexivity]).
Qed.

Lemma passphrase_success_ends_in_Done_witness :
  ∃ s',
    run (mount sample_env)
        [EvClick UsePassphrase;
         EvEnv sample_env; EvSettle 0 (inr sample_backup);
         EvAccessInvoke 2; EvSettle 4 (inr VUndefined);
         EvEnv sample_env; EvResume 3] = Some s'
    ∧ phase (st s') = PHASE_DONE.
Proof.
  apply (passphrase_success_ends_in_Done
           (mount sample_env) sample_env sample_env sample_backup VUndefined);
    reflexivity.
Defined.

(** ** Skipping *)

(** C6.  The Intro body shows Skip, and clicking it moves to ConfirmSkip;
    the ConfirmSkip body shows Go Back, which returns to Intro, and Skip,
    which calls [this.props.onFinished] once and leaves the state alone. *)
Theorem skip_confirm_and_back (s : Sys) :
  mounted s = true →
  phase (st s) = PHASE_INTRO →
  verificationRequest (st s) = None →
  ∃ s1 s2 s3,
    step s (EvClick Skip) = Some s1
    ∧ phase (st s1) = PHASE_CONFIRM_SKIP
    ∧ step s1 (EvClick SkipBack) = Some s2
    ∧ phase (st s2) = PHASE_INTRO
    ∧ step s1 (EvClick SkipConfirm) = Some s3
    ∧ onFinished_calls (trace s3) = S (onFinished_calls (trace s1))
    ∧ st s3 = st s1.
Proof.
  intros Hm Hp Hv. open_sys s. subst.
  unfold step, clickable. cbn.
  do 3 eexists. split; [reflexivity |].
  crunch. repeat split.
Qed.

Lemma skip_confirm_and_back_witness :
  ∃ s1 s2 s3,
    step (mount sample_env) (EvClick Skip) = Some s1
    ∧ phase (st s1) = PHASE_CONFIRM_SKIP
    ∧ step s1 (EvClick SkipBack) = Some s2
    ∧ phase (st s2) = PHASE_INTRO
    ∧ step s1 (EvClick SkipConfirm) = Some s3
    ∧ onFinished_calls (trace s3) = S (onFinished_calls (trace s1))
    ∧ st s3 = st s1.
Proof.
  apply (skip_confirm_and_back (mount sample_env)); reflexivity.
Defined.

(** ** Verification requests *)

(** C5.  A request of another user leaves the whole system as it was: the
    state (phase, stored request, backup descriptor), the subscriptions,
    the trace (no [accept] call) and the pool (nothing is awaited). *)
Theorem foreign_request_is_ignored (s : Sys) (request : Request) :
  otherUserId request ≠ userId (env s) →
  exec (onVerificationRequest request) s = s.
Proof.
  intros Hne. unfold onVerificationRequest. cbn.
  apply String.eqb_neq in Hne. rewrite Hne. reflexivity.
Qed.

Lemma foreign_request_is_ignored_witness :
  exec (onVerificationRequest foreign_request) (mount sample_env)
  = mount sample_env.
Proof.
  apply (foreign_request_is_ignored (mount sample_env) foreign_request).
  cbn. discriminate.
Defined.

(** A request of the own user that is handled with nothing in between,
    in any phase: once its [accept] has resolved, the call was made, the
    request is stored and subscribed to, the phase and the backup
    descriptor are untouched, and [render] shows the panel for it.  When
    the request is then flagged cancelled and emits a change, the listener
    is detached, the reference cleared, and [render] is the phase-based
    view again. *)
Theorem own_request_takes_over_until_cancelled
    (s : Sys) (request : Request) (v : Value) (e' : Env) :
  listening s = true →
  otherUserId request = userId (env s) →
  request ∈ cancelledRequests e' →
  let t := fresh s in
  let others :=
    match verificationRequest (st s) with
    | Some old => remove_one old (subs s)
    | None => subs s
    end in
  ∃ s1 s2,
    run s [EvVerificationRequest request; EvSettle t (inr v)] = Some s1
    ∧ trace s1 =
        ESetState (PatchVerificationRequest (Some request))
        :: EOn request :: ECall (Accept request)
        :: match verificationRequest (st s) with
           | Some old => EOff old :: trace s
           | None => trace s
           end
    ∧ st s1 = mkState (phase (st s)) (Some request) (backupInfo (st s))
    ∧ subs s1 = request :: others
    ∧ render (st s1) = inr (mkView None None (EncryptionPanel request))
    ∧ run s1 [EvEnv e'; EvChange request] = Some s2
    ∧ st s2 = mkState (phase (st s)) None (backupInfo (st s))
    ∧ subs s2 = others
    ∧ render (st s2) = phase_view (phase (st s)) (backupInfo (st s)).
Proof.
  intros Hl Hu Hc t others. subst t others.
  open_sys s. destruct request as [rid ou]. cbn in Hu. subst.
  destruct e' as [uid' cid' canc' acc']. cbn in Hc.
  unfold onVerificationRequest. cbn. rewrite String.eqb_refl.
  destruct vr as [old |]; crunch.
  all: do 2 eexists; split; [reflexivity |]; cbn.
  all: repeat (split; [reflexivity |]).
  all: rewrite bool_decide_eq_true_2 by apply list_elem_of_here.
  all: unfold onVerificationRequestChange, is_cancelled; cbn.
  all: rewrite bool_decide_eq_true_2 by exact Hc.
  all: crunch; rewrite decide_True by reflexivity.
  all: repeat split.
Qed.

Lemma own_request_takes_over_until_cancelled_witness :
  ∃ s1 s2,
    run (mount sample_env)
        [EvVerificationRequest sample_request; EvSettle 0 (inr VUndefined)]
      = Some s1
    ∧ trace s1 =
        [ESetState (PatchVerificationRequest (Some sample_request));
         EOn sample_request; ECall (Accept sample_request); EClientOn]
    ∧ st s1 = mkState PHASE_INTRO (Some sample_request) VNull
    ∧ subs s1 = [sample_request]
    ∧ render (st s1) = inr (mkView None None (EncryptionPanel sample_request))
    ∧ run s1 [EvEnv (mkEnv "@alice:example.org" VNull [sample_request] None);
              EvChange sample_request] = Some s2
    ∧ st s2 = mkState PHASE_INTRO None VNull
    ∧ subs s2 = []
    ∧ render (st s2) = phase_view PHASE_INTRO VNull.
Proof.
  apply (own_request_takes_over_until_cancelled
           (mount sample_env) sample_request VUndefined
           (mkEnv "@alice:example.org" VNull [sample_request] None)).
  - reflexivity.
  - reflexivity.
  - apply list_elem_of_here.
Defined.

(** C3, evaluated where it fails.  A request of the own user is stored
    and shown.  A second one arrives: line 112 detaches the listener of
    the first before line 114 awaits [accept()] of the second.  When the
    first request is cancelled during that wait, its change event has no
    listener to go to: the reference is not cleared and the panel of the
    cancelled request stays; and when [accept()] of the second request
    then rejects, nothing ever clears it. *)
Theorem cancellation_during_a_second_accept_is_lost :
  ∃ s s',
    run (mount sample_env)
        [EvVerificationRequest sample_request; EvSettle 0 (inr VUndefined);
         EvVerificationRequest second_request;
         EvEnv cancelled_env] = Some s
    ∧ verificationRequest (st s) = Some sample_request
    ∧ is_cancelled (env s) sample_request = true
    ∧ subs s = []
    ∧ step s (EvChange sample_request) = None
    ∧ render (st s) = inr (mkView None None (EncryptionPanel sample_request))
    ∧ step s (EvSettle 1 (inl (OtherError "declined"))) = Some s'
    ∧ verificationRequest (st s') = Some sample_request
    ∧ subs s' = []
    ∧ step s' (EvChange sample_request) = None.
Proof.
  do 2 eexists. split; [vm_compute; reflexivity |].
  repeat split.
Qed.

(** ** Failures on the passphrase path *)

(** C2, evaluated where it fails.  The call of the accessor throws the
    cancellation error.  The inner handler of line 87 writes it to the
    console with [console.error] and rejects the promise; the outer
    handler, which was written to keep a cancellation quiet (the test of
    line 98, the comment of line 101), then skips its [console.log] and
    returns to Intro.  The console is not as it was. *)
Theorem cancelled_access_throw_reaches_the_console :
  ∃ s',
    run (mount cancelling_env)
        [EvClick UsePassphrase; EvSettle 0 (inr VNull); EvResume 2] = Some s'
    ∧ phase (st s') = PHASE_INTRO
    ∧ console (trace (mount cancelling_env)) = []
    ∧ console (trace s') = [EConsoleError AccessCancelledError].
Proof.
  eexists. split; [vm_compute; reflexivity |].
  repeat split.
Qed.

(** The same in general form: no statement of this shape, with the
    console left as it was, holds of the handler. *)
Lemma cancelled_access_throw_is_logged :
  ¬ (∀ (s s' : Sys) (e : Error) (backup : Value),
       mounted s = true →
       phase (st s) = PHASE_INTRO →
       verificationRequest (st s) = None →
       accessThrows (env s) = Some e →
       instanceof_AccessCancelledError e = true →
       run s [EvClick UsePassphrase; EvSettle (fresh s) (inr backup);
              EvResume (2 + fresh s)] = Some s' →
       phase (st s') = PHASE_INTRO ∧ console (trace s') = console (trace s)).
Proof.
  intros H.
  pose (e := mkEnv "@alice:example.org" VNull [] (Some AccessCancelledError)).
  destruct (run (mount e) [EvClick UsePassphrase; EvSettle 0 (inr VNull);
                           EvResume 2]) as [s' |] eqn:Hrun;
    [| vm_compute in Hrun; discriminate Hrun].
  destruct (H (mount e) s' AccessCancelledError VNull
              eq_refl eq_refl eq_refl eq_refl eq_refl Hrun) as [_ Hc].
  vm_compute in Hrun. injection Hrun as <-.
  vm_compute in Hc. discriminate Hc.
Qed.

(** What the handler does when no request is stored and a failure
    reaches its [catch].  A failure that reaches the [catch], that
    is a rejection of the key-backup fetch ([s1]) or a synchronous throw of
    the accessor, which rejects the promise the handler then awaits
    ([s2]), brings the phase back to Intro and the view back
    to the Intro view, which shows nothing of the error.  The outer
    handler logs the error with [console.log] unless it is the
    cancellation error; a throw of the accessor is written with
    [console.error] first, whatever it is. *)
Theorem caught_failure_returns_to_Intro
    (s : Sys) (e : Error) (e1 : Env) (backup : Value) :
  mounted s = true →
  phase (st s) = PHASE_INTRO →
  verificationRequest (st s) = None →
  accessThrows e1 = Some e →
  let t := fresh s in
  let logged :=
    if instanceof_AccessCancelledError e then [] else [EConsoleLog e] in
  ∃ s1 s2,
    run s [EvClick UsePassphrase; EvSettle t (inl e)] = Some s1
    ∧ st s1 = st s
    ∧ trace s1 =
        ESetState (PatchPhase PHASE_INTRO) :: logged ++
        [ECall GetKeyBackupVersion; ESetState (PatchPhase PHASE_BUSY)] ++
        trace s
    ∧ render (st s1) = inr intro_view
    ∧ run s [EvClick UsePassphrase; EvEnv e1; EvSettle t (inr backup);
             EvResume (2 + t)] = Some s2
    ∧ st s2 = mkState PHASE_INTRO None backup
    ∧ trace s2 =
        ESetState (PatchPhase PHASE_INTRO) :: logged ++
        [EReject (1 + t) e; EConsoleError e; EAccessSecretStorage;
         ESetState (PatchBackupInfo backup);
         ECall GetKeyBackupVersion; ESetState (PatchPhase PHASE_BUSY)] ++
        trace s
    ∧ render (st s2) = inr intro_view.
Proof.
  intros Hm Hp Hv Hacc t logged. subst t logged.
  open_sys s. subst. destruct e1 as [uid1 cid1 canc1 acc1].
  cbn in Hacc. subst acc1.
  unfold clickable. cbn. button_shown. crunch.
  destruct (instanceof_AccessCancelledError e); crunch;
    (do 2 eexists; repeat split).
Qed.

Lemma caught_failure_returns_to_Intro_witness :
  ∃ s1 s2,
    run (mount sample_env)
        [EvClick UsePassphrase; EvSettle 0 (inl AccessCancelledError)]
      = Some s1
    ∧ st s1 = st (mount sample_env)
    ∧ trace s1 =
        ESetState (PatchPhase PHASE_INTRO) :: [] ++
        [ECall GetKeyBackupVersion; ESetState (PatchPhase PHASE_BUSY)] ++
        trace (mount sample_env)
    ∧ render (st s1) = inr intro_view
    ∧ run (mount sample_env)
          [EvClick UsePassphrase;
           EvEnv (mkEnv "@alice:example.org" VNull []
                        (Some AccessCancelledError));
           EvSettle 0 (inr sample_backup); EvResume 2]
        = Some s2
    ∧ st s2 = mkState PHASE_INTRO None sample_backup
    ∧ trace s2 =
        ESetState (PatchPhase PHASE_INTRO) :: [] ++
        [EReject 1 AccessCancelledError; EConsoleError AccessCancelledError;
         EAccessSecretStorage; ESetState (PatchBackupInfo sample_backup);
         ECall GetKeyBackupVersion; ESetState (PatchPhase PHASE_BUSY)] ++
        trace (mount sample_env)
    ∧ render (st s2) = inr intro_view.
Proof.
  apply (caught_failure_returns_to_Intro
           (mount sample_env) AccessCancelledError
           (mkEnv "@alice:example.org" VNull [] (Some AccessCancelledError))
           sample_backup);
    reflexivity.
Defined.

(** ** Order of the side effects *)

(** C7.  On the passphrase path the trace grows, oldest first, by: the
    phase Busy, the key-backup fetch, the descriptor stored, the call of
    the accessor, the trust check inside the callback, the resolution of
    the wizard's wait, and only then, when the descriptor is truthy, the
    start of the restore.  The handler then resumes and decides the phase
    with the restore still parked; whatever the restore settles with
    afterwards changes neither the state nor the subscriptions. *)
Theorem passphrase_effects_in_order
    (s : Sys) (e1 : Env) (backup v : Value) (res : Error + Value) :
  mounted s = true →
  phase (st s) = PHASE_INTRO →
  verificationRequest (st s) = None →
  accessThrows e1 = None →
  let t := fresh s in
  let restore :=
    if truthy backup
    then [ECall (RestoreKeyBackupWithSecretStorage backup)] else [] in
  ∃ s4 s5,
    run s [EvClick UsePassphrase;
           EvEnv e1; EvSettle t (inr backup);
           EvAccessInvoke (2 + t); EvSettle (4 + t) (inr v)] = Some s4
    ∧ trace s4 =
        restore ++
        [EResolve (1 + t); ECall CheckOwnCrossSigningTrust;
         EAccessSecretStorage; ESetState (PatchBackupInfo backup);
         ECall GetKeyBackupVersion; ESetState (PatchPhase PHASE_BUSY)] ++
        trace s
    ∧ backupInfo (st s4) = backup
    ∧ proms s4 !! (1 + t) = Some Fulfilled
    ∧ step s4 (EvResume (3 + t)) = Some s5
    ∧ phase (st s5) =
        (if truthy (crossSigningId e1) then PHASE_DONE else PHASE_BUSY)
    ∧ (truthy backup = true →
       ∃ s6, step s5 (EvSettle (5 + t) res) = Some s6
             ∧ st s6 = st s5 ∧ subs s6 = subs s5
             ∧ phase_writes (trace s6) = phase_writes (trace s5)).
Proof.
  intros Hm Hp Hv Hacc t restore. subst t restore.
  open_sys s. subst. destruct e1 as [uid1 cid1 canc1 acc1].
  cbn in Hacc. subst acc1.
  unfold clickable. cbn. button_shown. crunch.
  destruct (truthy cid1) eqn:Hc.
  all: destruct (truthy backup) eqn:Hb; crunch.
  all: eexists; eexists; split; [reflexivity |].
  all: split; [reflexivity |]; split; [reflexivity |].
  all: split; [crunch; reflexivity |].
  all: crunch; rewrite Hc; crunch.
  all: split; [reflexivity |]; split; [reflexivity |].
  all: intros Hb'; try discriminate Hb'.
  all: destruct res as [err | w]; crunch; eexists; repeat split.
Qed.

Lemma passphrase_effects_in_order_witness :
  ∃ s4 s5,
    run (mount sample_env)
        [EvClick UsePassphrase;
         EvEnv sample_env; EvSettle 0 (inr sample_backup);
         EvAccessInvoke 2; EvSettle 4 (inr VUndefined)] = Some s4
    ∧ trace s4 =
        [ECall (RestoreKeyBackupWithSecretStorage sample_backup)] ++
        [EResolve 1; ECall CheckOwnCrossSigningTrust;
         EAccessSecretStorage; ESetState (PatchBackupInfo sample_backup);
         ECall GetKeyBackupVersion; ESetState (PatchPhase PHASE_BUSY)] ++
        trace (mount sample_env)
    ∧ backupInfo (st s4) = sample_backup
    ∧ proms s4 !! 1%nat = Some Fulfilled
    ∧ step s4 (EvResume 3) = Some s5
    ∧ phase (st s5) = PHASE_DONE
    ∧ (truthy sample_backup = true →
       ∃ s6, step s5 (EvSettle 5 (inl (OtherError "restore failed"))) = Some s6
             ∧ st s6 = st s5 ∧ subs s6 = subs s5
             ∧ phase_writes (trace s6) = phase_writes (trace s5)).
Proof.
  apply (passphrase_effects_in_order
           (mount sample_env) sample_env sample_backup VUndefined
           (inl (OtherError "restore failed")));
    reflexivity.
Defined.

(** ** Subscriptions to the change stream *)

(** C4, evaluated where it fails.  Two requests of the own user arrive
    before the [accept] of either has resolved: both handlers saw no stored
    request at line 111, so both attach the listener at line 115.  Two
    subscriptions are active at once, and unmounting detaches only the
    stored request's: the first one outlives the component. *)
Theorem overlapping_requests_leak_a_subscription :
  ∃ s s',
    run (mount sample_env)
        [EvVerificationRequest sample_request;
         EvVerificationRequest second_request;
         EvSettle 0 (inr VUndefined);
         EvSettle 1 (inr VUndefined)] = Some s
    ∧ verificationRequest (st s) = Some second_request
    ∧ subs s = [second_request; sample_request]
    ∧ step s EvUnmount = Some s'
    ∧ mounted s' = false
    ∧ subs s' = [sample_request].
Proof.
  do 2 eexists. split; [vm_compute; reflexivity |].
  repeat split.
Qed.

(** The same leak with a single request: the component is unmounted while
    the [accept] is awaited, and the listener is attached afterwards. *)
Lemma unmount_during_accept_leaks_a_subscription :
  ∃ s,
    run (mount sample_env)
        [EvVerificationRequest sample_request;
         EvUnmount;
         EvSettle 0 (inr VUndefined)] = Some s
    ∧ mounted s = false
    ∧ subs s = [sample_request].
Proof.
  eexists. split; [vm_compute; reflexivity |].
  repeat split.
Qed.

(** ** Footprints of the handlers *)

Section ConfinedFacts.

Variable ok_patch : Patch → Prop.
Variable may_settle : Prop.

Lemma confined_chain (p q : Proc) :
  confined ok_patch may_settle p →
  confined ok_patch may_settle q →
  confined ok_patch may_settle (chain p q).
Proof.
  intros Hp Hq. induction p; cbn in *; intuition auto.
Qed.

Lemma confined_try_catch (p : Proc) (h : Error → Proc) :
  confined ok_patch may_settle p →
  (∀ e, confined ok_patch may_settle (h e)) →
  confined ok_patch may_settle (try_catch p h).
Proof.
  intros Hp Hh. induction p; cbn in *; intuition auto.
Qed.

Lemma confined_when (b : bool) (p : Proc) :
  confined ok_patch may_settle p →
  confined ok_patch may_settle (when b p).
Proof. destruct b; cbn; auto. Qed.

End ConfinedFacts.

Lemma valid_PHASE_INTRO : valid_phase PHASE_INTRO.
Proof. unfold valid_phase; auto. Qed.
Lemma valid_PHASE_BUSY : valid_phase PHASE_BUSY.
Proof. unfold valid_phase; auto. Qed.
Lemma valid_PHASE_DONE : valid_phase PHASE_DONE.
Proof. unfold valid_phase; auto. Qed.
Lemma valid_PHASE_CONFIRM_SKIP : valid_phase PHASE_CONFIRM_SKIP.
Proof. unfold valid_phase; auto. Qed.

(** Footprints of closed handlers are checked by unfolding. *)
Ltac confine :=
  repeat first
    [ apply confined_chain
    | apply confined_try_catch
    | apply confined_when
    | progress cbn
    | progress intros
    | split
    | exact I
    | apply valid_PHASE_INTRO | apply valid_PHASE_BUSY
    | apply valid_PHASE_DONE | apply valid_PHASE_CONFIRM_SKIP
    | match goal with
      | |- context [match ?x with _ => _ end] => destruct x
      end ].

Lemma handler_phase_safe (a : Action) : phase_safe (handler a).
Proof.
  unfold phase_safe.
  destruct a; unfold handler, _onUsePassphraseClick, onSkipClick,
    onSkipConfirmClick, onSkipBackClick, onDoneClick, new_Promise,
    accessSecretStorage, access_callback, await, await_promise.
  all: confine.
Qed.

Lemma onVerificationRequest_inert (r : Request) :
  inert (onVerificationRequest r).
Proof. unfold inert, onVerificationRequest, await. confine. Qed.

Lemma onVerificationRequestChange_inert : inert onVerificationRequestChange.
Proof. unfold inert, onVerificationRequestChange. confine. Qed.

Lemma componentWillUnmount_inert (client : bool) :
  inert (componentWillUnmount client).
Proof. unfold inert, componentWillUnmount. destruct client; confine. Qed.

Lemma confined_mono (P P' : Patch → Prop) (M M' : Prop) (p : Proc) :
  (∀ pa, P pa → P' pa) → (M → M') →
  confined P M p → confined P' M' p.
Proof.
  intros HP HM. induction p; cbn; try solve [intuition auto].
  destruct e; cbn; intuition auto.
Qed.

Lemma inert_phase_safe (p : Proc) : inert p → phase_safe p.
Proof.
  apply confined_mono; [| tauto]. intros [] H; cbn in *; tauto.
Qed.

Lemma phase_inv_frame (s s' : Sys) :
  st s' = st s →
  phase_writes (trace s') = phase_writes (trace s) →
  pool s' = pool s →
  phase_inv s → phase_inv s'.
Proof. unfold phase_inv. intros -> -> ->. auto. Qed.

Lemma phase_inv_emit (e : Effect) (s : Sys) :
  ok_effect safe_patch e → phase_inv s → phase_inv (emit e s).
Proof.
  unfold phase_inv. intros He (Hp & Hw & Hq). cbn.
  repeat split; auto.
  destruct e as [[] | | | | | | | | | | | | |]; cbn in *; auto.
Qed.

Lemma phase_inv_set_state (pa : Patch) (s : Sys) :
  safe_patch pa → phase_inv s → phase_inv (set_state pa s).
Proof.
  unfold phase_inv. intros He (Hp & Hw & Hq).
  destruct pa; cbn in *; auto.
Qed.

Lemma phase_inv_park (w : Pending) (s : Sys) :
  pending_confined safe_patch True w → phase_inv s → phase_inv (park w s).
Proof.
  unfold phase_inv. intros He (Hp & Hw & Hq). cbn.
  repeat split; auto. apply map_Forall_insert_2; auto.
Qed.

Lemma phase_inv_unpark (t : nat) (s : Sys) :
  phase_inv s → phase_inv (unpark t s).
Proof.
  unfold phase_inv. intros (Hp & Hw & Hq). cbn.
  repeat split; auto. apply map_Forall_delete; auto.
Qed.

Lemma exec_phase_inv (p : Proc) :
  phase_safe p → ∀ s, phase_inv s → phase_inv (exec p s).
Proof.
  unfold phase_safe.
  induction p as [| e | k IH | pa k IH | e k IH | k IH | k IH | r k IH
                  | c k IH | k IH | n k IH | n e k IH | n k IH
                  | cb IHcb k IH | r k IH | r k IH | k IH | k IH];
    intros Hp s Hs; cbn in Hp |- *.
  - exact Hs.
  - apply phase_inv_emit; [exact I | exact Hs].
  - apply IH; auto.
  - destruct Hp. apply IH; [| apply phase_inv_set_state]; auto.
  - destruct Hp. apply IH; [| apply phase_inv_emit]; auto.
  - apply IH; auto.
  - apply IH; auto.
  - apply IH; auto.
  - apply phase_inv_park; [exact Hp |]. apply phase_inv_emit; [exact I | auto].
  - destruct Hp. apply IH; auto;
      (eapply phase_inv_frame; [| | | exact Hs]; reflexivity).
  - destruct Hp. apply IH; auto;
      (eapply phase_inv_frame; [| | | exact Hs]; reflexivity).
  - destruct Hp. apply IH; auto;
      (eapply phase_inv_frame; [| | | exact Hs]; reflexivity).
  - apply phase_inv_park; auto.
  - destruct Hp as [Hcb Hk].
    destruct (accessThrows (env s)).
    + apply IH; auto; (apply phase_inv_emit; [exact I | auto]).
    + apply IH; auto; (apply phase_inv_park; [exact Hcb |]);
        (apply phase_inv_emit; [exact I | auto]).
  - apply IH; auto;
      (eapply phase_inv_frame; [| | | exact Hs]; reflexivity).
  - apply IH; auto;
      (eapply phase_inv_frame; [| | | exact Hs]; reflexivity).
  - apply IH; auto;
      (eapply phase_inv_frame; [| | | exact Hs]; reflexivity).
  - apply IH; auto;
      (eapply phase_inv_frame; [| | | exact Hs]; reflexivity).
Qed.

Lemma step_phase_inv (s s' : Sys) (ev : Event) :
  phase_inv s → step s ev = Some s' → phase_inv s'.
Proof.
  intros Hs Hstep. destruct ev as [e | a | r | r | t res | t | t | t e | |];
    cbn in Hstep.
  - injection Hstep as <-.
    eapply phase_inv_frame; [| | | exact Hs]; reflexivity.
  - destruct (clickable a s); [| discriminate]. injection Hstep as <-.
    apply exec_phase_inv; [apply handler_phase_safe | exact Hs].
  - destruct (listening s); [| discriminate]. injection Hstep as <-.
    apply exec_phase_inv; [| exact Hs].
    apply inert_phase_safe, onVerificationRequest_inert.
  - destruct (bool_decide _); [| discriminate]. injection Hstep as <-.
    apply exec_phase_inv; [| exact Hs].
    apply inert_phase_safe, onVerificationRequestChange_inert.
  - destruct (pool s !! t) as [[c k | |] |] eqn:Hw; try discriminate.
    injection Hstep as <-.
    apply exec_phase_inv; [| apply phase_inv_unpark, Hs].
    destruct Hs as (_ & _ & Hq). apply (Hq _ _ Hw).
  - destruct (pool s !! t) as [[| p k |] |] eqn:Hw; try discriminate.
    destruct Hs as (Hp & Hws & Hq). pose proof (Hq _ _ Hw) as Hk.
    destruct (proms s !! p) as [[| | e] |]; try discriminate;
      injection Hstep as <-.
    all: apply exec_phase_inv; [apply Hk | apply phase_inv_unpark].
    all: repeat split; auto.
  - destruct (pool s !! t) as [[| | cb] |] eqn:Hw; try discriminate.
    injection Hstep as <-.
    apply exec_phase_inv; [| apply phase_inv_unpark, Hs].
    destruct Hs as (_ & _ & Hq). pose proof (Hq _ _ Hw) as Hk.
    apply confined_try_catch; [exact Hk |]. intros e. cbn. auto.
  - destruct (pool s !! t) as [[| | cb] |] eqn:Hw; try discriminate.
    injection Hstep as <-.
    apply phase_inv_emit; [exact I |]. apply phase_inv_unpark, Hs.
  - destruct (mounted s); [| discriminate]. injection Hstep as <-.
    apply (phase_inv_frame (exec (componentWillUnmount true) s));
      try reflexivity.
    apply exec_phase_inv; [| exact Hs].
    apply inert_phase_safe, componentWillUnmount_inert.
  - destruct (mounted s); [| discriminate]. injection Hstep as <-.
    apply (phase_inv_frame (exec (componentWillUnmount false) s));
      try reflexivity.
    apply exec_phase_inv; [| exact Hs].
    apply inert_phase_safe, componentWillUnmount_inert.
Qed.

Lemma mount_phase_inv (e : Env) : phase_inv (mount e).
Proof.
  repeat split; cbn.
  - apply valid_PHASE_INTRO.
  - constructor.
  - apply map_Forall_empty.
Qed.

Lemma reachable_phase_inv (s : Sys) : reachable s → phase_inv s.
Proof.
  induction 1 as [e | s ev s' _ IH Hstep].
  - apply mount_phase_inv.
  - exact (step_phase_inv _ _ _ IH Hstep).
Qed.

Lemma phase_view_known (ph : Z) (backup : Value) :
  valid_phase ph → ∃ v, phase_view ph backup = inr v.
Proof.
  intros [-> | [-> | [-> | ->]]]; cbn; eauto.
Qed.

Lemma phase_writes_emit (e : Effect) (tr : list Effect) :
  ok_effect no_phase e → phase_writes (e :: tr) = phase_writes tr.
Proof. destruct e as [[] | | | | | | | | | | | | |]; cbn; tauto. Qed.

Lemma exec_inert (p : Proc) :
  inert p →
  ∀ (Q : Pending → Prop) (s : Sys),
    (∀ w, pending_confined no_phase False w → Q w) →
    map_Forall (λ _, Q) (pool s) →
    phase (st (exec p s)) = phase (st s)
    ∧ proms (exec p s) = proms s
    ∧ phase_writes (trace (exec p s)) = phase_writes (trace s)
    ∧ map_Forall (λ _, Q) (pool (exec p s)).
Proof.
  unfold inert.
  induction p as [| e | k IH | pa k IH | e k IH | k IH | k IH | r k IH
                  | c k IH | k IH | n k IH | n e k IH | n k IH
                  | cb IHcb k IH | r k IH | r k IH | k IH | k IH];
    intros Hp Q s HQ Hs; cbn in Hp |- *.
  - auto.
  - auto.
  - apply IH; auto.
  - destruct Hp as [Hpa Hk].
    destruct (IH Hk Q (set_state pa s) HQ Hs) as (E1 & E2 & E3 & E4).
    rewrite E1, E2, E3. destruct pa; cbn in *; tauto.
  - destruct Hp as [He Hk].
    destruct (IH Hk Q (emit e s) HQ Hs) as (E1 & E2 & E3 & E4).
    rewrite E1, E2, E3. change (trace (emit e s)) with (e :: trace s).
    rewrite phase_writes_emit by exact He. auto.
  - apply IH; auto.
  - apply IH; auto.
  - apply IH; auto.
  - repeat split; auto. apply map_Forall_insert_2; [| exact Hs].
    apply HQ. exact Hp.
  - tauto.
  - tauto.
  - tauto.
  - repeat split; auto. apply map_Forall_insert_2; [| exact Hs].
    apply HQ. exact Hp.
  - destruct Hp as [Hcb Hk]. destruct (accessThrows (env s)) as [e |].
    + destruct (IH (Some e) (Hk _) Q (emit EAccessSecretStorage s) HQ Hs)
        as (E1 & E2 & E3 & E4).
      rewrite E1, E2, E3. auto.
    + assert (Hs' : map_Forall (λ _, Q)
                (pool (park (PCallback cb) (emit EAccessSecretStorage s)))).
      { apply map_Forall_insert_2; [| exact Hs]. apply HQ. exact Hcb. }
      destruct (IH None (Hk _) Q _ HQ Hs') as (E1 & E2 & E3 & E4).
      rewrite E1, E2, E3. auto.
  - destruct (IH Hp Q (subscribe r s) HQ Hs) as (E1 & E2 & E3 & E4).
    rewrite E1, E2, E3. auto.
  - destruct (IH Hp Q (unsubscribe r s) HQ Hs) as (E1 & E2 & E3 & E4).
    rewrite E1, E2, E3. auto.
  - destruct (IH Hp Q (set_listening true (emit EClientOn s)) HQ Hs)
      as (E1 & E2 & E3 & E4).
    rewrite E1, E2, E3. auto.
  - destruct (IH Hp Q (set_listening false (emit EClientRemoveListener s))
                HQ Hs) as (E1 & E2 & E3 & E4).
    rewrite E1, E2, E3. auto.
Qed.

Lemma pending_calm_proms (s s' : Sys) (w : Pending) :
  proms s' = proms s → pending_calm s w → pending_calm s' w.
Proof. intros E. destruct w; cbn; rewrite ?E; auto. Qed.

Lemma pending_inert_calm (s : Sys) (w : Pending) :
  pending_confined no_phase False w → pending_calm s w.
Proof. destruct w; cbn; auto. Qed.

Lemma calm_frame (s s' : Sys) :
  st s' = st s → proms s' = proms s → pool s' = pool s →
  calm s → calm s'.
Proof.
  unfold calm. intros E1 E2 E3 [Hp Hq]. rewrite E1, E3. split; [exact Hp |].
  intros t w Hw. eapply pending_calm_proms; [exact E2 |]. exact (Hq t w Hw).
Qed.

Lemma calm_unpark (t : nat) (s : Sys) : calm s → calm (unpark t s).
Proof.
  intros [Hp Hq]. split; [exact Hp |]. cbn.
  apply map_Forall_delete. exact Hq.
Qed.

Lemma calm_exec (q : Proc) (s : Sys) :
  inert q → calm s →
  calm (exec q s)
  ∧ proms (exec q s) = proms s
  ∧ phase_writes (trace (exec q s)) = phase_writes (trace s).
Proof.
  intros Hq [Hp Hpool].
  destruct (exec_inert q Hq (pending_calm s) s (pending_inert_calm s) Hpool)
    as (E1 & E2 & E3 & E4).
  repeat split; auto.
  - rewrite E1. exact Hp.
  - intros t w Hw. eapply pending_calm_proms; [exact E2 |]. exact (E4 t w Hw).
Qed.

Lemma calm_click (a : Action) (s : Sys) :
  calm s → clickable a s = true → inert (handler a).
Proof.
  intros [Hp _]. unfold clickable, render. rewrite Hp.
  destruct (mounted s); [| discriminate]. cbn.
  destruct (verificationRequest (st s)); cbn.
  - intros Ha. apply bool_decide_eq_true_1 in Ha.
    apply list_elem_of_singleton in Ha as ->. cbn. auto.
  - intros Ha. apply bool_decide_eq_true_1 in Ha.
    apply elem_of_nil in Ha. destruct Ha.
Qed.

Lemma calm_step (s s' : Sys) (ev : Event) :
  calm s → step s ev = Some s' →
  calm s'
  ∧ proms s' = proms s
  ∧ phase_writes (trace s') = phase_writes (trace s).
Proof.
  intros Hs Hstep. destruct ev as [e | a | r | r | t res | t | t | t e | |];
    cbn in Hstep.
  - injection Hstep as <-. split; [| split; reflexivity].
    eapply calm_frame; [| | | exact Hs]; reflexivity.
  - destruct (clickable a s) eqn:Ha; [| discriminate]. injection Hstep as <-.
    apply calm_exec; [exact (calm_click a s Hs Ha) | exact Hs].
  - destruct (listening s); [| discriminate]. injection Hstep as <-.
    apply calm_exec; [apply onVerificationRequest_inert | exact Hs].
  - destruct (bool_decide _); [| discriminate]. injection Hstep as <-.
    apply calm_exec; [apply onVerificationRequestChange_inert | exact Hs].
  - destruct (pool s !! t) as [[c k | |] |] eqn:Hw; try discriminate.
    injection Hstep as <-.
    apply (calm_exec (k res) (unpark t s)); [| apply calm_unpark, Hs].
    destruct Hs as [_ Hq]. exact (Hq _ _ Hw res).
  - destruct (pool s !! t) as [[| p k |] |] eqn:Hw; try discriminate.
    pose proof (proj2 Hs _ _ Hw) as [Hu | Hk]; cbn in *.
    { rewrite Hu in Hstep. discriminate. }
    destruct (proms s !! p) as [[| | e] |]; try discriminate;
      injection Hstep as <-.
    all: apply (calm_exec _ (unpark t s)); [apply Hk | apply calm_unpark, Hs].
  - destruct (pool s !! t) as [[| | cb] |] eqn:Hw; try discriminate.
    injection Hstep as <-.
    apply (calm_exec _ (unpark t s)); [| apply calm_unpark, Hs].
    apply confined_try_catch; [exact (proj2 Hs _ _ Hw) |].
    intros e. cbn. auto.
  - destruct (pool s !! t) as [[| | cb] |] eqn:Hw; try discriminate.
    injection Hstep as <-. split; [| split; reflexivity].
    eapply calm_frame; [| | | apply calm_unpark, Hs]; reflexivity.
  - destruct (mounted s); [| discriminate]. injection Hstep as <-.
    destruct (calm_exec _ s (componentWillUnmount_inert true) Hs)
      as (C & E1 & E2).
    split; [| split; assumption].
    apply (calm_frame (exec (componentWillUnmount true) s));
      try reflexivity.
    exact C.
  - destruct (mounted s); [| discriminate]. injection Hstep as <-.
    destruct (calm_exec _ s (componentWillUnmount_inert false) Hs)
      as (C & E1 & E2).
    split; [| split; assumption].
    apply (calm_frame (exec (componentWillUnmount false) s));
      try reflexivity.
    exact C.
Qed.

Lemma calm_run (evs : list Event) (s s' : Sys) :
  calm s → run s evs = Some s' →
  phase (st s') = PHASE_BUSY
  ∧ proms s' = proms s
  ∧ phase_writes (trace s') = phase_writes (trace s).
Proof.
  revert s. induction evs as [| ev evs IH]; intros s Hs Hrun; cbn in Hrun.
  - injection Hrun as <-. destruct Hs. auto.
  - destruct (step s ev) as [s1 |] eqn:Hstep; [| discriminate].
    destruct (calm_step s s1 ev Hs Hstep) as (C & E1 & E2).
    destruct (IH s1 C Hrun) as (P & E3 & E4).
    rewrite E3, E4. auto.
Qed.

Lemma idle_calm_pool (s : Sys) (m : gmap nat Pending) :
  map_Forall (λ _ w, pending_confined no_phase False w) m →
  map_Forall (λ _ w, pending_calm s w) m.
Proof.
  intros H. eapply map_Forall_impl; [exact H |].
  intros i w. apply pending_inert_calm.
Qed.

(** ** No identity after a successful run *)

(** C9.  The run of C1, except that the client reports no cross-signing
    id when the handler resumes: the handler ends without an error (the
    console is untouched), the only phase it stored is Busy, and the phase
    is Busy after every continuation of the run.  [idle s] says that
    nothing parked before the click can change the phase. *)
Theorem no_identity_stays_Busy
    (s : Sys) (e1 e2 : Env) (backup v : Value) :
  mounted s = true →
  phase (st s) = PHASE_INTRO →
  verificationRequest (st s) = None →
  idle s →
  accessThrows e1 = None →
  truthy (crossSigningId e2) = false →
  let t := fresh s in
  ∃ s',
    run s [EvClick UsePassphrase;
           EvEnv e1; EvSettle t (inr backup);
           EvAccessInvoke (2 + t); EvSettle (4 + t) (inr v);
           EvEnv e2; EvResume (3 + t)] = Some s'
    ∧ phase (st s') = PHASE_BUSY
    ∧ phase_writes (trace s') = PHASE_BUSY :: phase_writes (trace s)
    ∧ console (trace s') = console (trace s)
    ∧ ∀ evs s'', run s' evs = Some s'' →
        phase (st s'') = PHASE_BUSY
        ∧ phase_writes (trace s'') = PHASE_BUSY :: phase_writes (trace s).
Proof.
  intros Hm Hp Hv Hidle Hacc Hid t. subst t.
  unfold idle in Hidle.
  open_sys s. subst.
  destruct e1 as [uid1 cid1 canc1 acc1], e2 as [uid2 cid2 canc2 acc2].
  cbn in Hacc, Hid. subst acc1.
  unfold clickable. cbn. button_shown. crunch.
  destruct (truthy backup); crunch; rewrite Hid; crunch.
  all: eexists; split; [reflexivity |].
  all: split; [reflexivity |]; split; [reflexivity |]; split; [reflexivity |].
  all: intros evs s'' Hrun.
  all: eapply calm_run in Hrun as (P & _ & W); [rewrite W; auto |].
  all: split; [reflexivity |]; cbn; pool_norm.
  all: repeat apply map_Forall_delete.
  all: repeat (apply map_Forall_insert_2;
                 [cbn; intros []; cbn; auto |]);
         repeat apply map_Forall_delete.
  all: apply idle_calm_pool, Hidle.
Qed.

Lemma no_identity_stays_Busy_witness :
  ∃ s',
    run (mount sample_env)
        [EvClick UsePassphrase;
         EvEnv sample_env; EvSettle 0 (inr sample_backup);
         EvAccessInvoke 2; EvSettle 4 (inr VUndefined);
         EvEnv no_identity_env; EvResume 3] = Some s'
    ∧ phase (st s') = PHASE_BUSY
    ∧ phase_writes (trace s') =
        PHASE_BUSY :: phase_writes (trace (mount sample_env))
    ∧ console (trace s') = console (trace (mount sample_env))
    ∧ ∀ evs s'', run s' evs = Some s'' →
        phase (st s'') = PHASE_BUSY
        ∧ phase_writes (trace s'') =
            PHASE_BUSY :: phase_writes (trace (mount sample_env)).
Proof.
  apply (no_identity_stays_Busy
           (mount sample_env) sample_env no_identity_env
           sample_backup VUndefined);
    try reflexivity.
  apply map_Forall_empty.
Defined.

(** ** A rejection of the accessor's promise *)

(** C8, as stated, fails: the accessor's promise also rejects when the
    restore, which the callback awaits after [resolve()], fails.  The
    wizard's promise is fulfilled by then, and the handler goes on to
    Done. *)
Lemma restore_rejection_still_reaches_Done :
  ∃ s',
    run (mount sample_env)
        [EvClick UsePassphrase; EvSettle 0 (inr sample_backup);
         EvAccessInvoke 2; EvSettle 4 (inr VUndefined);
         EvSettle 5 (inl (OtherError "restore failed"));
         EvResume 3] = Some s'
    ∧ EAccessRejected (OtherError "restore failed") ∈ trace s'
    ∧ proms s' !! 1%nat = Some Fulfilled
    ∧ phase (st s') = PHASE_DONE
    ∧ phase (st s') ≠ PHASE_BUSY.
Proof.
  eexists. split; [vm_compute; reflexivity |].
  split; [| split; [| split]].
  - cbn. do 1 constructor. constructor.
  - reflexivity.
  - reflexivity.
  - discriminate.
Qed.

(** C8, amended.  When the accessor's promise rejects before the callback
    has called [resolve], that is with the callback never invoked ([s1])
    or with the trust check inside it rejecting ([s2]), nothing hands the
    rejection to the promise of line 74: after every continuation of the
    run that promise is unsettled, no phase was stored since Busy (the
    [catch] did not run), and the phase is Busy.  When it rejects after
    [resolve], because the restore failed ([s3]), the promise of line 74
    is fulfilled all the same: the handler resumes, and the phase becomes
    Done if the client reports an identity and stays Busy if not. *)
Theorem unpropagated_rejection_hangs_in_Busy
    (s : Sys) (e1 : Env) (backup v : Value) (err : Error) :
  mounted s = true →
  phase (st s) = PHASE_INTRO →
  verificationRequest (st s) = None →
  idle s →
  accessThrows e1 = None →
  let t := fresh s in
  (∃ s1 s2,
    run s [EvClick UsePassphrase; EvEnv e1; EvSettle t (inr backup);
           EvAccessReject (2 + t) err] = Some s1
    ∧ run s [EvClick UsePassphrase; EvEnv e1; EvSettle t (inr backup);
             EvAccessInvoke (2 + t); EvSettle (4 + t) (inl err)] = Some s2
    ∧ ∀ si, si = s1 ∨ si = s2 →
        hd_error (trace si) = Some (EAccessRejected err)
        ∧ ∀ evs s', run si evs = Some s' →
            phase (st s') = PHASE_BUSY
            ∧ proms s' !! (1 + t) = Some Unsettled
            ∧ phase_writes (trace s') = PHASE_BUSY :: phase_writes (trace s))
  ∧ (truthy backup = true →
     ∃ s3 s4,
       run s [EvClick UsePassphrase; EvEnv e1; EvSettle t (inr backup);
              EvAccessInvoke (2 + t); EvSettle (4 + t) (inr v);
              EvSettle (5 + t) (inl err)] = Some s3
       ∧ hd_error (trace s3) = Some (EAccessRejected err)
       ∧ proms s3 !! (1 + t) = Some Fulfilled
       ∧ phase (st s3) = PHASE_BUSY
       ∧ step s3 (EvResume (3 + t)) = Some s4
       ∧ phase (st s4) =
           (if truthy (crossSigningId e1) then PHASE_DONE else PHASE_BUSY)).
Proof.
  intros Hm Hp Hv Hidle Hacc t. subst t.
  unfold idle in Hidle.
  open_sys s. subst. destruct e1 as [uid1 cid1 canc1 acc1].
  cbn in Hacc. subst acc1.
  split.
  - unfold clickable. cbn. button_shown. crunch.
    eexists; eexists; split; [reflexivity |]; split; [reflexivity |].
    intros si [-> | ->]; (split; [reflexivity |]).
    all: intros evs s' Hrun.
    all: eapply calm_run in Hrun as (P & E & W);
           [rewrite E, W; cbn; rewrite lookup_insert_eq; auto |].
    all: split; [reflexivity |]; cbn; pool_norm.
    all: repeat apply map_Forall_delete.
    all: apply map_Forall_insert_2;
           [left; cbn; apply lookup_insert_eq |].
    all: repeat apply map_Forall_delete.
    all: apply idle_calm_pool, Hidle.
  - intros Hb. unfold clickable. cbn. button_shown. crunch.
    rewrite Hb. crunch.
    destruct (truthy cid1) eqn:Hc.
    all: eexists; eexists; split; [reflexivity |].
    all: split; [reflexivity |]; split; [crunch; reflexivity |].
    all: split; [reflexivity |]; crunch; rewrite Hc; crunch.
    all: split; reflexivity.
Qed.

Lemma unpropagated_rejection_hangs_in_Busy_witness :
  (∃ s1 s2,
    run (mount sample_env)
        [EvClick UsePassphrase; EvEnv no_identity_env;
         EvSettle 0 (inr sample_backup);
         EvAccessReject 2 AccessCancelledError] = Some s1
    ∧ run (mount sample_env)
          [EvClick UsePassphrase; EvEnv no_identity_env;
           EvSettle 0 (inr sample_backup);
           EvAccessInvoke 2; EvSettle 4 (inl AccessCancelledError)] = Some s2
    ∧ ∀ si, si = s1 ∨ si = s2 →
        hd_error (trace si) = Some (EAccessRejected AccessCancelledError)
        ∧ ∀ evs s', run si evs = Some s' →
            phase (st s') = PHASE_BUSY
            ∧ proms s' !! 1%nat = Some Unsettled
            ∧ phase_writes (trace s') =
                PHASE_BUSY :: phase_writes (trace (mount sample_env)))
  ∧ (truthy sample_backup = true →
     ∃ s3 s4,
       run (mount sample_env)
           [EvClick UsePassphrase; EvEnv no_identity_env;
            EvSettle 0 (inr sample_backup);
            EvAccessInvoke 2; EvSettle 4 (inr VUndefined);
            EvSettle 5 (inl AccessCancelledError)] = Some s3
       ∧ hd_error (trace s3) = Some (EAccessRejected AccessCancelledError)
       ∧ proms s3 !! 1%nat = Some Fulfilled
       ∧ phase (st s3) = PHASE_BUSY
       ∧ step s3 (EvResume 3) = Some s4
       ∧ phase (st s4) =
           (if truthy (crossSigningId no_identity_env)
            then PHASE_DONE else PHASE_BUSY)).
Proof.
  apply (unpropagated_rejection_hangs_in_Busy
           (mount sample_env) no_identity_env sample_backup VUndefined
           AccessCancelledError);
    try reflexivity.
  apply map_Forall_empty.
Defined.

(** ** The phases stored are known *)

(** C10.  In every state the component can reach from its constructor, the
    phase stored is one of the four constants, so was every phase ever
    given to [setState], and [render] returns a view: the [throw] of line
    263 is not reached. *)
Theorem phase_is_always_known (s : Sys) :
  reachable s →
  valid_phase (phase (st s))
  ∧ Forall valid_phase (phase_writes (trace s))
  ∧ ∃ v, render (st s) = inr v.
Proof.
  intros Hr. destruct (reachable_phase_inv s Hr) as (Hp & Hw & _).
  repeat split; auto. unfold render.
  destruct (verificationRequest (st s)); [eauto |].
  apply phase_view_known, Hp.
Qed.

Lemma phase_is_always_known_witness :
  valid_phase (phase (st (exec onSkipClick (mount sample_env))))
  ∧ Forall valid_phase
      (phase_writes (trace (exec onSkipClick (mount sample_env))))
  ∧ ∃ v, render (st (exec onSkipClick (mount sample_env))) = inr v.
Proof.
  apply (phase_is_always_known (exec onSkipClick (mount sample_env))).
  apply (reachable_step (mount sample_env) (EvClick Skip)).
  - apply reachable_mount.
  - reflexivity.
Defined.

(** ** More about the views *)

(** X1.  The Done view offers the Done button; clicking it calls
    [this.props.onFinished] once and touches nothing else. *)
Theorem done_click_finishes (s : Sys) :
  mounted s = true →
  phase (st s) = PHASE_DONE →
  verificationRequest (st s) = None →
  ∃ s',
    step s (EvClick Done) = Some s'
    ∧ trace s' = EOnFinished :: trace s
    ∧ onFinished_calls (trace s') = S (onFinished_calls (trace s))
    ∧ st s' = st s ∧ subs s' = subs s ∧ pool s' = pool s
    ∧ proms s' = proms s.
Proof.
  intros Hm Hp Hv. open_sys s. subst.
  unfold step, clickable. cbn.
  eexists. split; [reflexivity |]. repeat split.
Qed.

Lemma done_click_finishes_witness :
  ∃ s',
    step (set_state (PatchPhase PHASE_DONE) (mount sample_env))
         (EvClick Done) = Some s'
    ∧ trace s' =
        EOnFinished
        :: trace (set_state (PatchPhase PHASE_DONE) (mount sample_env))
    ∧ onFinished_calls (trace s') =
        S (onFinished_calls
             (trace (set_state (PatchPhase PHASE_DONE) (mount sample_env))))
    ∧ st s' = st (set_state (PatchPhase PHASE_DONE) (mount sample_env))
    ∧ subs s' = subs (set_state (PatchPhase PHASE_DONE) (mount sample_env))
    ∧ pool s' = pool (set_state (PatchPhase PHASE_DONE) (mount sample_env))
    ∧ proms s' = proms (set_state (PatchPhase PHASE_DONE) (mount sample_env)).
Proof.
  apply (done_click_finishes
           (set_state (PatchPhase PHASE_DONE) (mount sample_env)));
    reflexivity.
Defined.

(** X2.  [render] throws exactly when no request is stored and the phase
    is none of the four constants, and what it throws is the error of
    line 263. *)
Theorem render_throws_only_on_unknown_phase (s : State) (e : Error) :
  render s = inl e ↔
  verificationRequest s = None ∧ ¬ valid_phase (phase s)
  ∧ e = OtherError "Unknown phase".
Proof.
  unfold render, phase_view, valid_phase.
  unfold PHASE_INTRO, PHASE_BUSY, PHASE_DONE, PHASE_CONFIRM_SKIP.
  destruct (verificationRequest s) as [r |].
  { split; [discriminate | intros [H _]; discriminate H]. }
  destruct (phase s =? 0)%Z eqn:E0; [apply Z.eqb_eq in E0 |].
  { split; [discriminate | intros (_ & H & _); destruct H; auto]. }
  destruct (phase s =? 2)%Z eqn:E2; [apply Z.eqb_eq in E2 |].
  { split; [discriminate | intros (_ & H & _); destruct H; auto]. }
  destruct (phase s =? 3)%Z eqn:E3; [apply Z.eqb_eq in E3 |].
  { split; [discriminate | intros (_ & H & _); destruct H; auto]. }
  destruct (phase s =? 1)%Z eqn:E1; [apply Z.eqb_eq in E1 |].
  { split; [discriminate | intros (_ & H & _); destruct H; auto]. }
  apply Z.eqb_neq in E0, E1, E2, E3.
  split.
  - intros [= <-]. repeat split. intros [? | [? | [? | ?]]]; contradiction.
  - intros (_ & _ & ->). reflexivity.
Qed.

(** X3.  Each handler is bound to a button of one view only: the
    passphrase link and Skip belong to Intro, the two buttons of the
    confirmation to ConfirmSkip, Done to Done, and closing to the panel of
    a stored request.  The Busy view has nothing to click. *)
Theorem each_button_belongs_to_one_view (a : Action) (s : Sys) :
  clickable a s = true →
  mounted s = true
  ∧ match a with
    | UsePassphrase | Skip =>
        verificationRequest (st s) = None ∧ phase (st s) = PHASE_INTRO
    | SkipConfirm | SkipBack =>
        verificationRequest (st s) = None
        ∧ phase (st s) = PHASE_CONFIRM_SKIP
    | Done =>
        verificationRequest (st s) = None ∧ phase (st s) = PHASE_DONE
    | PanelClose => verificationRequest (st s) ≠ None
    end.
Proof.
  unfold clickable, render, phase_view.
  destruct (mounted s); [| discriminate]. cbn.
  destruct (verificationRequest (st s)) as [r |]; cbn.
  { intros H. apply bool_decide_eq_true_1, list_elem_of_singleton in H.
    subst a. split; [reflexivity | discriminate]. }
  destruct (phase (st s) =? PHASE_INTRO)%Z eqn:E0;
    [apply Z.eqb_eq in E0 |
     destruct (phase (st s) =? PHASE_DONE)%Z eqn:E2;
       [apply Z.eqb_eq in E2 |
        destruct (phase (st s) =? PHASE_CONFIRM_SKIP)%Z eqn:E3;
          [apply Z.eqb_eq in E3 |
           destruct (phase (st s) =? PHASE_BUSY)%Z eqn:E1 ]]].
  all: cbn; intros H; try discriminate H.
  all: apply bool_decide_eq_true_1 in H.
  all: repeat (apply elem_of_cons in H as [-> | H]); try (by apply elem_of_nil in H).
  all: auto.
Qed.

Lemma each_button_belongs_to_one_view_witness :
  mounted (mount sample_env) = true
  ∧ verificationRequest (st (mount sample_env)) = None
  ∧ phase (st (mount sample_env)) = PHASE_INTRO.
Proof.
  apply (each_button_belongs_to_one_view UsePassphrase (mount sample_env)).
  reflexivity.
Defined.

(** ** More about verification requests *)

(** X4.  A change of the stored request that is not a cancellation does
    nothing at all. *)
Theorem change_without_cancellation_is_ignored (s : Sys) (r : Request) :
  verificationRequest (st s) = Some r →
  r ∉ cancelledRequests (env s) →
  exec onVerificationRequestChange s = s.
Proof.
  intros Hv Hc. unfold onVerificationRequestChange. cbn. rewrite Hv. cbn.
  unfold is_cancelled. rewrite bool_decide_eq_false_2 by exact Hc.
  reflexivity.
Qed.

Lemma change_without_cancellation_is_ignored_witness :
  exec onVerificationRequestChange
       (set_state (PatchVerificationRequest (Some sample_request))
                  (mount sample_env))
  = set_state (PatchVerificationRequest (Some sample_request))
              (mount sample_env).
Proof.
  apply (change_without_cancellation_is_ignored
           (set_state (PatchVerificationRequest (Some sample_request))
                      (mount sample_env))
           sample_request).
  - reflexivity.
  - apply not_elem_of_nil.
Defined.

(** X5.  A listener that is still attached to some request when no request
    is stored reads [cancelled] of [null] on its next change event: the
    handler throws a [TypeError] before it can detach anything, so the
    state and the attachment stay as they are and the next event throws
    again. *)
Theorem change_without_stored_request_throws (s : Sys) (r : Request) :
  verificationRequest (st s) = None →
  r ∈ subs s →
  ∃ s',
    step s (EvChange r) = Some s'
    ∧ trace s' = EUncaught TypeError :: trace s
    ∧ st s' = st s
    ∧ subs s' = subs s
    ∧ ∃ s'', step s' (EvChange r) = Some s''
             ∧ trace s'' = EUncaught TypeError :: trace s'.
Proof.
  intros Hv Hr. open_sys s. subst.
  unfold step. cbn. rewrite bool_decide_eq_true_2 by exact Hr.
  eexists. split; [reflexivity |]. cbn. repeat split.
  rewrite bool_decide_eq_true_2 by exact Hr.
  eexists. split; reflexivity.
Qed.

Lemma change_without_stored_request_throws_witness :
  ∃ s',
    step leaked_state (EvChange sample_request) = Some s'
    ∧ trace s' = EUncaught TypeError :: trace leaked_state
    ∧ st s' = st leaked_state
    ∧ subs s' = subs leaked_state
    ∧ ∃ s'', step s' (EvChange sample_request) = Some s''
             ∧ trace s'' = EUncaught TypeError :: trace s'.
Proof.
  apply (change_without_stored_request_throws leaked_state sample_request).
  - vm_compute. reflexivity.
  - vm_compute. apply list_elem_of_here.
Defined.





(** X8.  When [accept()] of a new request rejects, the handler ends at
    line 114 with the rejection uncaught: the new request is neither
    stored nor listened to, but the listener of the request stored before
    was already detached in line 112.  That request is still shown, and
    its cancellation can no longer reach the component. *)
Theorem rejected_accept_detaches_the_shown_request
    (s : Sys) (old request : Request) (err : Error) :
  listening s = true →
  otherUserId request = userId (env s) →
  verificationRequest (st s) = Some old →
  subs s = [old] →
  ∃ s1,
    run s [EvVerificationRequest request; EvSettle (fresh s) (inl err)]
      = Some s1
    ∧ trace s1 =
        EUncaught err :: ECall (Accept request) :: EOff old :: trace s
    ∧ st s1 = st s
    ∧ render (st s1) = inr (mkView None None (EncryptionPanel old))
    ∧ subs s1 = []
    ∧ step s1 (EvChange old) = None.
Proof.
  intros Hl Hu Hv Hs. open_sys s. destruct request as [rid ou].
  cbn in Hu. subst.
  unfold onVerificationRequest. cbn. rewrite String.eqb_refl. crunch.
  rewrite decide_True by reflexivity.
  eexists. split; [reflexivity |]. repeat split.
Qed.

Lemma rejected_accept_detaches_the_shown_request_witness :
  ∃ s1,
    run panel_state
        [EvVerificationRequest second_request;
         EvSettle (fresh panel_state) (inl (OtherError "declined"))]
      = Some s1
    ∧ trace s1 =
        EUncaught (OtherError "declined")
        :: ECall (Accept second_request)
        :: EOff sample_request :: trace panel_state
    ∧ st s1 = st panel_state
    ∧ render (st s1) = inr (mkView None None (EncryptionPanel sample_request))
    ∧ subs s1 = []
    ∧ step s1 (EvChange sample_request) = None.
Proof.
  apply (rejected_accept_detaches_the_shown_request
           panel_state sample_request second_request
           (OtherError "declined")).
  - vm_compute. reflexivity.
  - vm_compute. reflexivity.
  - vm_compute. reflexivity.
  - vm_compute. reflexivity.
Defined.

(** X9.  Requests that are handled one after the other keep the
    subscriptions in step with the state: once [accept()] of the new
    request has resolved, its listener is the only one, whatever was
    stored before. *)
Theorem sequential_requests_keep_one_subscription
    (s : Sys) (request : Request) (v : Value) :
  listening s = true →
  otherUserId request = userId (env s) →
  tidy s →
  ∃ s1,
    run s [EvVerificationRequest request; EvSettle (fresh s) (inr v)]
      = Some s1
    ∧ verificationRequest (st s1) = Some request
    ∧ subs s1 = [request]
    ∧ tidy s1.
Proof.
  unfold tidy. intros Hl Hu Hs. open_sys s. destruct request as [rid ou].
  cbn in Hu. subst.
  unfold onVerificationRequest. cbn. rewrite String.eqb_refl.
  destruct vr as [old |]; crunch;
    rewrite ?decide_True by reflexivity;
    (eexists; split; [reflexivity |]; repeat split).
Qed.

Lemma sequential_requests_keep_one_subscription_witness :
  ∃ s1,
    run panel_state
        [EvVerificationRequest second_request;
         EvSettle (fresh panel_state) (inr VUndefined)]
      = Some s1
    ∧ verificationRequest (st s1) = Some second_request
    ∧ subs s1 = [second_request]
    ∧ tidy s1.
Proof.
  apply (sequential_requests_keep_one_subscription
           panel_state second_request VUndefined).
  - vm_compute. reflexivity.
  - vm_compute. reflexivity.
  - vm_compute. reflexivity.
Defined.

(** X10.  The cancellation of the stored request, in a tidy state, leaves
    no request and no subscription; the event is then disabled. *)
Theorem cancellation_clears_request_and_subscription
    (s : Sys) (r : Request) :
  tidy s →
  verificationRequest (st s) = Some r →
  r ∈ cancelledRequests (env s) →
  ∃ s',
    step s (EvChange r) = Some s'
    ∧ trace s' =
        ESetState (PatchVerificationRequest None) :: EOff r :: trace s
    ∧ verificationRequest (st s') = None
    ∧ phase (st s') = phase (st s)
    ∧ subs s' = []
    ∧ tidy s'
    ∧ step s' (EvChange r) = None.
Proof.
  unfold tidy. intros Ht Hv Hc. open_sys s. subst.
  unfold step, onVerificationRequestChange. cbn.
  rewrite bool_decide_eq_true_2 by apply list_elem_of_here. cbn.
  unfold is_cancelled. cbn.
  rewrite bool_decide_eq_true_2 by exact Hc. crunch.
  rewrite decide_True by reflexivity.
  eexists. split; [reflexivity |]. repeat split.
Qed.

Lemma cancellation_clears_request_and_subscription_witness :
  ∃ s',
    step (set_env (mkEnv "@alice:example.org" VNull [sample_request] None)
                  panel_state)
         (EvChange sample_request) = Some s'
    ∧ trace s' =
        ESetState (PatchVerificationRequest None) :: EOff sample_request
        :: trace (set_env (mkEnv "@alice:example.org" VNull
                                 [sample_request] None) panel_state)
    ∧ verificationRequest (st s') = None
    ∧ phase (st s') =
        phase (st (set_env (mkEnv "@alice:example.org" VNull
                                  [sample_request] None) panel_state))
    ∧ subs s' = []
    ∧ tidy s'
    ∧ step s' (EvChange sample_request) = None.
Proof.
  apply (cancellation_clears_request_and_subscription
           (set_env (mkEnv "@alice:example.org" VNull [sample_request] None)
                    panel_state)
           sample_request).
  - vm_compute. reflexivity.
  - vm_compute. reflexivity.
  - vm_compute. apply list_elem_of_here.
Defined.

(** ** What cannot change the phase *)

Lemma idle_exec (q : Proc) (s : Sys) :
  inert q → idle s →
  idle (exec q s)
  ∧ phase (st (exec q s)) = phase (st s)
  ∧ phase_writes (trace (exec q s)) = phase_writes (trace s).
Proof.
  intros Hq Hs.
  destruct (exec_inert q Hq (pending_confined no_phase False) s
              (λ _ H, H) Hs) as (E1 & _ & E3 & E4).
  auto.
Qed.

Lemma idle_unpark (t : nat) (s : Sys) : idle s → idle (unpark t s).
Proof. unfold idle. cbn. apply map_Forall_delete. Qed.

(** An event whose handler is inert keeps an idle state idle and its phase
    as it is. *)
Lemma idle_step (s s' : Sys) (ev : Event) :
  idle s →
  (∀ a, ev = EvClick a → inert (handler a)) →
  step s ev = Some s' →
  idle s'
  ∧ phase (st s') = phase (st s)
  ∧ phase_writes (trace s') = phase_writes (trace s).
Proof.
  intros Hs Hclick Hstep.
  destruct ev as [e | a | r | r | t res | t | t | t e | |]; cbn in Hstep.
  - injection Hstep as <-. auto.
  - destruct (clickable a s); [| discriminate]. injection Hstep as <-.
    apply idle_exec; [exact (Hclick a eq_refl) | exact Hs].
  - destruct (listening s); [| discriminate]. injection Hstep as <-.
    apply idle_exec; [apply onVerificationRequest_inert | exact Hs].
  - destruct (bool_decide _); [| discriminate]. injection Hstep as <-.
    apply idle_exec; [apply onVerificationRequestChange_inert | exact Hs].
  - destruct (pool s !! t) as [[c k | |] |] eqn:Hw; try discriminate.
    injection Hstep as <-.
    apply (idle_exec (k res) (unpark t s)); [| apply idle_unpark, Hs].
    exact (Hs _ _ Hw res).
  - destruct (pool s !! t) as [[| p k |] |] eqn:Hw; try discriminate.
    pose proof (Hs _ _ Hw) as Hk. cbn in Hk.
    destruct (proms s !! p) as [[| | e] |]; try discriminate;
      injection Hstep as <-.
    all: apply (idle_exec _ (unpark t s)); [apply Hk | apply idle_unpark, Hs].
  - destruct (pool s !! t) as [[| | cb] |] eqn:Hw; try discriminate.
    injection Hstep as <-.
    apply (idle_exec _ (unpark t s)); [| apply idle_unpark, Hs].
    apply confined_try_catch; [exact (Hs _ _ Hw) |].
    intros e. cbn. auto.
  - destruct (pool s !! t) as [[| | cb] |] eqn:Hw; try discriminate.
    injection Hstep as <-. split; [apply idle_unpark, Hs | auto].
  - destruct (mounted s); [| discriminate]. injection Hstep as <-.
    exact (idle_exec _ s (componentWillUnmount_inert true) Hs).
  - destruct (mounted s); [| discriminate]. injection Hstep as <-.
    exact (idle_exec _ s (componentWillUnmount_inert false) Hs).
Qed.

(** X11.  Only a click changes the phase of a component on which no
    passphrase flow is pending: verification requests, their changes and
    settlements, and unmounting leave it alone. *)
Theorem only_clicks_change_the_phase (s s' : Sys) (ev : Event) :
  idle s →
  (∀ a, ev ≠ EvClick a) →
  step s ev = Some s' →
  phase (st s') = phase (st s)
  ∧ phase_writes (trace s') = phase_writes (trace s)
  ∧ idle s'.
Proof.
  intros Hs Hev Hstep.
  destruct (idle_step s s' ev Hs) as (I & P & W); auto.
  intros a ->. destruct (Hev a eq_refl).
Qed.

Lemma only_clicks_change_the_phase_witness :
  phase (st (exec (onVerificationRequest sample_request) (mount sample_env)))
    = phase (st (mount sample_env))
  ∧ phase_writes
      (trace (exec (onVerificationRequest sample_request) (mount sample_env)))
    = phase_writes (trace (mount sample_env))
  ∧ idle (exec (onVerificationRequest sample_request) (mount sample_env)).
Proof.
  apply (only_clicks_change_the_phase
           (mount sample_env) _ (EvVerificationRequest sample_request)).
  - apply map_Forall_empty.
  - discriminate.
  - reflexivity.
Defined.

(** X12.  Done is terminal: with no passphrase flow pending, no run leaves
    the phase Done, and no phase is stored any more. *)
Theorem Done_is_terminal (evs : list Event) (s s' : Sys) :
  idle s →
  phase (st s) = PHASE_DONE →
  run s evs = Some s' →
  phase (st s') = PHASE_DONE
  ∧ phase_writes (trace s') = phase_writes (trace s).
Proof.
  revert s. induction evs as [| ev evs IH]; intros s Hs Hp Hrun;
    cbn in Hrun.
  - injection Hrun as <-. auto.
  - destruct (step s ev) as [s1 |] eqn:Hstep; [| discriminate].
    assert (Hclick : ∀ a, ev = EvClick a → inert (handler a)).
    { intros a ->. cbn in Hstep.
      destruct (clickable a s) eqn:Ha; [| discriminate].
      unfold clickable, render in Ha. rewrite Hp in Ha.
      destruct (mounted s); [| discriminate]. cbn in Ha.
      destruct (verificationRequest (st s)); cbn in Ha;
        apply bool_decide_eq_true_1, list_elem_of_singleton in Ha;
        subst a; cbn; auto. }
    destruct (idle_step s s1 ev Hs Hclick Hstep) as (I & P & W).
    destruct (IH s1 I (eq_trans P Hp) Hrun) as (P' & W').
    rewrite W', W. auto.
Qed.

Lemma Done_is_terminal_witness :
  phase (st (exec onDoneClick
               (set_state (PatchPhase PHASE_DONE) (mount sample_env))))
    = PHASE_DONE
  ∧ phase_writes
      (trace (exec onDoneClick
                (set_state (PatchPhase PHASE_DONE) (mount sample_env))))
    = phase_writes
        (trace (set_state (PatchPhase PHASE_DONE) (mount sample_env))).
Proof.
  apply (Done_is_terminal [EvClick Done]
           (set_state (PatchPhase PHASE_DONE) (mount sample_env))).
  - apply map_Forall_empty.
  - reflexivity.
  - reflexivity.
Defined.

(** Decide the comparisons of [render] and leave arithmetic. *)
Ltac split_tests :=
  repeat match goal with
    | |- context [?a <? ?b] => destruct (Nat.ltb_spec a b)
    | |- context [?a <=? ?b] => destruct (Nat.leb_spec a b)
    end.

(** ** The list of shared rooms *)

(** X13.  Until "show more" was clicked a view shows at most three
    tiles, in the compact sentence and in the list alike. *)
Theorem shared_rooms_limited_view_shows_at_most_three
    (getRoom : string → option SharedRooms.Room)
    (sorter : list (option SharedRooms.Room) → list (option SharedRooms.Room))
    (p : SharedRooms.Props) (s : SharedRooms.State) :
  SharedRooms.showAll s = false →
  length (SharedRooms.shown (SharedRooms.render getRoom sorter p s))
  ≤ SharedRooms.LIMITED_VIEW_SHOW_COUNT.
Proof.
  intros Hs. unfold SharedRooms.render. rewrite Hs.
  unfold SharedRooms.LIMITED_VIEW_SHOW_COUNT.
  destruct (SharedRooms.roomIds s) as [[| id ids] |].
  - destruct (SharedRooms.compact p); cbn; lia.
  - set (T := SharedRooms.renderRoomTiles getRoom sorter p (id :: ids)).
    pose proof (length_take T 3) as HT.
    destruct (SharedRooms.compact p);
      cbn -[take Nat.ltb Nat.leb Nat.sub]; split_tests;
      cbn -[take Nat.sub]; lia.
  - destruct (SharedRooms.error s), (SharedRooms.compact p); cbn; lia.
Qed.

Lemma shared_rooms_limited_view_shows_at_most_three_witness :
  length (SharedRooms.shown
            (SharedRooms.render
               SharedRooms.sample_getRoom reverse
               (SharedRooms.mkProps "@bob:example.org" false)
               SharedRooms.sample_state))
  ≤ SharedRooms.LIMITED_VIEW_SHOW_COUNT.
Proof.
  apply (shared_rooms_limited_view_shows_at_most_three
           SharedRooms.sample_getRoom reverse
           (SharedRooms.mkProps "@bob:example.org" false)
           SharedRooms.sample_state).
  reflexivity.
Defined.

(** X14.  The tiles shown and the number announced as hidden add up to
    the number of tiles there are: no tile is lost between the sentence
    "and n more", or the button "Show n more", and the list. *)
Theorem shared_rooms_counts_add_up
    (getRoom : string → option SharedRooms.Room)
    (sorter : list (option SharedRooms.Room) → list (option SharedRooms.Room))
    (p : SharedRooms.Props) (s : SharedRooms.State)
    (id : string) (ids : list string) :
  SharedRooms.roomIds s = Some (id :: ids) →
  length (SharedRooms.shown (SharedRooms.render getRoom sorter p s))
  + SharedRooms.hidden (SharedRooms.render getRoom sorter p s)
  = length (SharedRooms.renderRoomTiles getRoom sorter p (id :: ids)).
Proof.
  intros Hs. unfold SharedRooms.render. rewrite Hs.
  unfold SharedRooms.LIMITED_VIEW_SHOW_COUNT.
  set (T := SharedRooms.renderRoomTiles getRoom sorter p (id :: ids)).
  pose proof (length_take T 3) as HT.
  destruct (SharedRooms.showAll s), (SharedRooms.compact p);
    cbn -[take Nat.ltb Nat.leb Nat.sub]; split_tests;
    cbn -[take Nat.sub]; rewrite ?take_ge by lia; lia.
Qed.

Lemma shared_rooms_counts_add_up_witness :
  length (SharedRooms.shown
            (SharedRooms.render
               SharedRooms.sample_getRoom reverse
               (SharedRooms.mkProps "@bob:example.org" true)
               SharedRooms.sample_state))
  + SharedRooms.hidden
      (SharedRooms.render
         SharedRooms.sample_getRoom reverse
         (SharedRooms.mkProps "@bob:example.org" true)
         SharedRooms.sample_state)
  = length (SharedRooms.renderRoomTiles
              SharedRooms.sample_getRoom reverse
              (SharedRooms.mkProps "@bob:example.org" true)
              ["!a"; "!b"; "!c"; "!d"; "!e"; "!f"]).
Proof.
  apply (shared_rooms_counts_add_up
           SharedRooms.sample_getRoom reverse
           (SharedRooms.mkProps "@bob:example.org" true)
           SharedRooms.sample_state "!a" ["!b"; "!c"; "!d"; "!e"; "!f"]).
  reflexivity.
Defined.

(** X15.  In the list view, "show more" is offered exactly while tiles
    are hidden, with their number; after [onShowMoreClick] every tile is
    shown and the button is gone. *)
Theorem shared_rooms_show_more_reveals_every_tile
    (getRoom : string → option SharedRooms.Room)
    (sorter : list (option SharedRooms.Room) → list (option SharedRooms.Room))
    (p : SharedRooms.Props) (s : SharedRooms.State)
    (id : string) (ids : list string) :
  SharedRooms.compact p = false →
  SharedRooms.roomIds s = Some (id :: ids) →
  SharedRooms.showAll s = false →
  let tiles := SharedRooms.renderRoomTiles getRoom sorter p (id :: ids) in
  SharedRooms.render getRoom sorter p s
  = SharedRooms.Panel
      (SharedRooms.Tiles (take 3 tiles))
      (if decide (3 < length tiles)
       then Some (length tiles - 3) else None)
  ∧ SharedRooms.render getRoom sorter p (SharedRooms.onShowMoreClick s).1
    = SharedRooms.Panel (SharedRooms.Tiles tiles) None.
Proof.
  intros Hc Hs Ha tiles. unfold SharedRooms.render, SharedRooms.onShowMoreClick.
  cbn -[take SharedRooms.renderRoomTiles Nat.ltb Nat.leb Nat.sub].
  rewrite Hc, Hs, Ha.
  cbn -[take SharedRooms.renderRoomTiles Nat.ltb Nat.leb Nat.sub].
  fold tiles. unfold SharedRooms.LIMITED_VIEW_SHOW_COUNT.
  split; [| reflexivity].
  pose proof (length_take tiles 3) as HT.
  destruct (Nat.ltb_spec 3 (length tiles)); destruct (decide _); try lia.
  - do 2 f_equal. lia.
  - reflexivity.
Qed.

(** X16.  Every tile belongs to a room that has no tombstone; in the
    compact view it is a pill carrying the room's non-empty canonical
    alias, otherwise a room tile. *)
Theorem shared_rooms_tiles_are_of_visible_rooms
    (getRoom : string → option SharedRooms.Room)
    (sorter : list (option SharedRooms.Room) → list (option SharedRooms.Room))
    (p : SharedRooms.Props) (ids : list string) (t : SharedRooms.Tile) :
  t ∈ SharedRooms.renderRoomTiles getRoom sorter p ids →
  SharedRooms.tombstone (SharedRooms.tile_room t) = false
  ∧ SharedRooms.visible p (SharedRooms.tile_room t) = true
  ∧ if SharedRooms.compact p
    then ∃ alias, t = SharedRooms.PillLink alias (SharedRooms.tile_room t)
                  ∧ SharedRooms.canonicalAlias (SharedRooms.tile_room t)
                    = Some alias
                  ∧ alias ≠ EmptyString
    else t = SharedRooms.RoomTileItem (SharedRooms.tile_room t).
Proof.
  unfold SharedRooms.renderRoomTiles. intros Ht.
  apply list_elem_of_omap in Ht as (room & _ & Hr).
  unfold SharedRooms.renderRoomTile, SharedRooms.visible in *.
  destruct room as [room |]; [| discriminate].
  destruct (SharedRooms.tombstone room) eqn:Hts; [discriminate |].
  destruct (SharedRooms.compact p).
  - destruct (SharedRooms.canonicalAlias room) as [alias |] eqn:Ha;
      [| discriminate].
    destruct (is_empty alias) eqn:He; [discriminate |].
    injection Hr as <-. cbn. rewrite Hts, Ha, He. repeat split.
    exists alias. repeat split. intros ->. discriminate He.
  - injection Hr as <-. cbn. rewrite Hts. repeat split.
Qed.

Lemma shared_rooms_show_more_reveals_every_tile_witness :
  let tiles :=
    SharedRooms.renderRoomTiles
      SharedRooms.sample_getRoom reverse
      (SharedRooms.mkProps "@bob:example.org" false)
      ["!a"; "!b"; "!c"; "!d"; "!e"; "!f"] in
  SharedRooms.render SharedRooms.sample_getRoom reverse
    (SharedRooms.mkProps "@bob:example.org" false) SharedRooms.sample_state
  = SharedRooms.Panel
      (SharedRooms.Tiles (take 3 tiles))
      (if decide (3 < length tiles)
       then Some (length tiles - 3) else None)
  ∧ SharedRooms.render SharedRooms.sample_getRoom reverse
      (SharedRooms.mkProps "@bob:example.org" false)
      (SharedRooms.onShowMoreClick SharedRooms.sample_state).1
    = SharedRooms.Panel (SharedRooms.Tiles tiles) None.
Proof.
  apply (shared_rooms_show_more_reveals_every_tile
           SharedRooms.sample_getRoom reverse
           (SharedRooms.mkProps "@bob:example.org" false)
           SharedRooms.sample_state "!a" ["!b"; "!c"; "!d"; "!e"; "!f"]);
    reflexivity.
Defined.

Lemma shared_rooms_tiles_are_of_visible_rooms_witness :
  SharedRooms.tombstone
    (SharedRooms.tile_room
       (SharedRooms.PillLink "#f:example.org"
          (SharedRooms.mkRoom "!f" false (Some "#f:example.org")))) = false
  ∧ SharedRooms.visible (SharedRooms.mkProps "@bob:example.org" true)
      (SharedRooms.tile_room
         (SharedRooms.PillLink "#f:example.org"
            (SharedRooms.mkRoom "!f" false (Some "#f:example.org")))) = true
  ∧ if SharedRooms.compact (SharedRooms.mkProps "@bob:example.org" true)
    then ∃ alias,
           SharedRooms.PillLink "#f:example.org"
             (SharedRooms.mkRoom "!f" false (Some "#f:example.org"))
           = SharedRooms.PillLink alias
               (SharedRooms.tile_room
                  (SharedRooms.PillLink "#f:example.org"
                     (SharedRooms.mkRoom "!f" false (Some "#f:example.org"))))
           ∧ SharedRooms.canonicalAlias
               (SharedRooms.tile_room
                  (SharedRooms.PillLink "#f:example.org"
                     (SharedRooms.mkRoom "!f" false (Some "#f:example.org"))))
             = Some alias
           ∧ alias ≠ EmptyString
    else SharedRooms.PillLink "#f:example.org"
           (SharedRooms.mkRoom "!f" false (Some "#f:example.org"))
         = SharedRooms.RoomTileItem
             (SharedRooms.tile_room
                (SharedRooms.PillLink "#f:example.org"
                   (SharedRooms.mkRoom "!f" false (Some "#f:example.org")))).
Proof.
  apply (shared_rooms_tiles_are_of_visible_rooms
           SharedRooms.sample_getRoom reverse
           (SharedRooms.mkProps "@bob:example.org" true)
           ["!a"; "!b"; "!c"; "!d"; "!e"; "!f"]).
  vm_compute. apply list_elem_of_here.
Defined.

(** X17.  A sorter that only reorders decides nothing about which tiles
    there are: a shared room that the client knows, that has no tombstone
    and, in the compact view, has an alias, gets a tile, and the tiles are
    those of the unsorted rooms up to their order. *)
Theorem shared_rooms_every_visible_room_gets_a_tile
    (getRoom : string → option SharedRooms.Room)
    (sorter : list (option SharedRooms.Room) → list (option SharedRooms.Room))
    (p : SharedRooms.Props) (ids : list string)
    (id : string) (room : SharedRooms.Room) :
  (∀ l, sorter l ≡ₚ l) →
  id ∈ ids →
  getRoom id = Some room →
  SharedRooms.visible p room = true →
  (∃ t, t ∈ SharedRooms.renderRoomTiles getRoom sorter p ids
        ∧ SharedRooms.tile_room t = room)
  ∧ SharedRooms.renderRoomTiles getRoom sorter p ids
    ≡ₚ omap (λ i, SharedRooms.renderRoomTile p (getRoom i)) ids.
Proof.
  intros Hperm Hid Hroom Hvis. unfold SharedRooms.renderRoomTiles.
  assert (Hshown : ∃ t, SharedRooms.renderRoomTile p (Some room) = Some t
                        ∧ SharedRooms.tile_room t = room).
  { unfold SharedRooms.renderRoomTile, SharedRooms.visible in *.
    destruct (SharedRooms.tombstone room); [discriminate |].
    destruct (SharedRooms.compact p); cbn in Hvis; [| eauto].
    destruct (SharedRooms.canonicalAlias room) as [alias |];
      [| discriminate].
    destruct (is_empty alias); [discriminate | eauto]. }
  destruct Hshown as (t & Ht & Hroom').
  split.
  - exists t. split; [| exact Hroom'].
    apply list_elem_of_omap. exists (Some room). split; [| exact Ht].
    rewrite Hperm. apply list_elem_of_fmap. exists id. auto.
  - rewrite Hperm. clear. induction ids as [| i ids IH]; cbn; [done |].
    destruct (SharedRooms.renderRoomTile p (getRoom i)); cbn;
      [f_equiv |]; exact IH.
Qed.

Lemma shared_rooms_every_visible_room_gets_a_tile_witness :
  (∃ t, t ∈ SharedRooms.renderRoomTiles SharedRooms.sample_getRoom reverse
              (SharedRooms.mkProps "@bob:example.org" true)
              ["!a"; "!b"; "!c"; "!d"; "!e"; "!f"]
        ∧ SharedRooms.tile_room t
          = SharedRooms.mkRoom "!d" false (Some "#d:example.org"))
  ∧ SharedRooms.renderRoomTiles SharedRooms.sample_getRoom reverse
      (SharedRooms.mkProps "@bob:example.org" true)
      ["!a"; "!b"; "!c"; "!d"; "!e"; "!f"]
    ≡ₚ omap (λ i, SharedRooms.renderRoomTile
                    (SharedRooms.mkProps "@bob:example.org" true)
                    (SharedRooms.sample_getRoom i))
            ["!a"; "!b"; "!c"; "!d"; "!e"; "!f"].
Proof.
  apply (shared_rooms_every_visible_room_gets_a_tile
           SharedRooms.sample_getRoom reverse
           (SharedRooms.mkProps "@bob:example.org" true)
           ["!a"; "!b"; "!c"; "!d"; "!e"; "!f"] "!d"
           (SharedRooms.mkRoom "!d" false (Some "#d:example.org"))).
  - intros l. apply reverse_Permutation.
  - do 3 apply list_elem_of_further. apply list_elem_of_here.
  - reflexivity.
  - reflexivity.
Defined.

(** X18.  What is shown before and after the fetch: the spinner while
    nothing has arrived, the error text when the fetch failed, the
    no-rooms text for an empty answer; and once an answer has arrived, an
    earlier failure no longer shows. *)
Theorem shared_rooms_fetch_outcome
    (getRoom : string → option SharedRooms.Room)
    (sorter : list (option SharedRooms.Room) → list (option SharedRooms.Room))
    (p : SharedRooms.Props) (err : Error)
    (s : SharedRooms.State) (ids : list string) :
  let wrap c :=
    if SharedRooms.compact p
    then SharedRooms.CompactContent c else SharedRooms.Panel c None in
  let mounted res s := (SharedRooms.componentDidMount p res s).1 in
  SharedRooms.render getRoom sorter p SharedRooms.initial_state
  = wrap SharedRooms.Loading
  ∧ SharedRooms.render getRoom sorter p
      (mounted (inl err) SharedRooms.initial_state)
    = wrap SharedRooms.FetchError
  ∧ SharedRooms.render getRoom sorter p
      (mounted (inr []) SharedRooms.initial_state)
    = wrap SharedRooms.NoSharedRooms
  ∧ SharedRooms.render getRoom sorter p
      (mounted (inr ids) (mounted (inl err) s))
    = SharedRooms.render getRoom sorter p (mounted (inr ids) s).
Proof.
  cbn. unfold SharedRooms.render. cbn.
  destruct (SharedRooms.compact p); cbn; repeat split.
Qed.

(** X19.  The compact view never offers "show more"; and when rooms are
    shared but none of them gets a tile, it renders the empty array:
    neither the sentence nor the no-rooms text. *)
Theorem shared_rooms_compact_view_without_tiles
    (getRoom : string → option SharedRooms.Room)
    (sorter : list (option SharedRooms.Room) → list (option SharedRooms.Room))
    (p : SharedRooms.Props) (s : SharedRooms.State)
    (id : string) (ids : list string) :
  SharedRooms.compact p = true →
  SharedRooms.roomIds s = Some (id :: ids) →
  SharedRooms.renderRoomTiles getRoom sorter p (id :: ids) = [] →
  SharedRooms.render getRoom sorter p s
  = SharedRooms.CompactContent (SharedRooms.Tiles [])
  ∧ ∀ s' c n, SharedRooms.render getRoom sorter p s' ≠ SharedRooms.Panel c n.
Proof.
  intros Hc Hs Ht. unfold SharedRooms.render. rewrite Hc. split.
  - rewrite Hs, Ht. cbn. destruct (SharedRooms.showAll s); reflexivity.
  - intros s' c n.
    destruct (SharedRooms.roomIds s') as [[| i l] |];
      cbn -[take Nat.ltb Nat.leb Nat.sub SharedRooms.renderRoomTiles];
      repeat case_match; discriminate.
Qed.

Lemma shared_rooms_compact_view_without_tiles_witness :
  SharedRooms.render SharedRooms.sample_getRoom reverse
    (SharedRooms.mkProps "@bob:example.org" true)
    (SharedRooms.mkState (Some ["!b"; "!c"; "!z"]) false false)
  = SharedRooms.CompactContent (SharedRooms.Tiles [])
  ∧ ∀ s' c n,
      SharedRooms.render SharedRooms.sample_getRoom reverse
        (SharedRooms.mkProps "@bob:example.org" true) s'
      ≠ SharedRooms.Panel c n.
Proof.
  apply (shared_rooms_compact_view_without_tiles
           SharedRooms.sample_getRoom reverse
           (SharedRooms.mkProps "@bob:example.org" true)
           (SharedRooms.mkState (Some ["!b"; "!c"; "!z"]) false false)
           "!b" ["!c"; "!z"]);
    reflexivity.
Defined.

(** ** The keywords editor *)

Lemma is_empty_true (s : string) : is_empty s = true ↔ s = EmptyString.
Proof. destruct s; cbn; split; congruence. Qed.

Lemma filter_neq_absent (k : string) (l : list string) :
  k ∉ l → filter (λ x, x ≠ k) l = l.
Proof.
  induction l as [| x l IH]; intros Hk; [done |].
  apply not_elem_of_cons in Hk as [Hx Hl].
  rewrite filter_cons_True by congruence. f_equal. auto.
Qed.

Lemma filter_neq_snoc (k : string) (l : list string) :
  k ∉ l → filter (λ x, x ≠ k) (l ++ [k]) = l.
Proof.
  intros Hk. rewrite filter_app, filter_neq_absent by exact Hk.
  rewrite filter_cons_False by (intros H; apply H; reflexivity).
  apply app_nil_r.
Qed.

Lemma removeKeyword_well_formed (k : string) (ed : Keywords.Editor) :
  Keywords.well_formed ed →
  Keywords.well_formed (Keywords._removeKeyword k ed).1.
Proof.
  intros [Hn Hf]. split; cbn.
  - apply NoDup_filter, Hn.
  - apply Forall_forall. intros x Hx.
    apply list_elem_of_filter in Hx as [_ Hx].
    rewrite Forall_forall in Hf. auto.
Qed.

Lemma addKeyword_well_formed
    (trim : string → string) (v : string) (ed : Keywords.Editor) :
  Keywords.well_formed ed →
  Keywords.well_formed (Keywords._addKeyword trim v ed).1.
Proof.
  intros [Hn Hf]. unfold Keywords._addKeyword.
  destruct (is_empty (trim v)) eqn:He; cbn; [done |].
  destruct (bool_decide _) eqn:Hin; cbn; [done |].
  apply bool_decide_eq_false_1 in Hin.
  split; cbn.
  - apply NoDup_app. repeat split; [exact Hn | | apply NoDup_singleton].
    intros x Hx Hx'. apply list_elem_of_singleton in Hx'. subst x. auto.
  - apply Forall_app. split; [exact Hf |].
    constructor; [| constructor].
    intros E. apply is_empty_true in E. congruence.
Qed.

(** X20.  Whatever the user does to the editor, its pills stay distinct
    and none of them is empty. *)
Theorem keywords_editor_keeps_pills_distinct
    (trim : string → string) (a : Keywords.Action)
    (ed ed' : Keywords.Editor) (calls : list Keywords.Call) :
  Keywords.well_formed ed →
  Keywords.handle trim a ed = Some (ed', calls) →
  Keywords.well_formed ed'.
Proof.
  intros Hw. destruct a as [v | v | e | k]; cbn.
  - intros [= <- _]. exact Hw.
  - unfold Keywords.onBlur. destruct (negb _); intros [= <- _]; exact Hw.
  - unfold Keywords.onKeyDown.
    destruct (_ && _).
    + destruct (last _) as [k |]; intros [= <- _];
        [apply removeKeyword_well_formed |]; exact Hw.
    + destruct (Keywords.is_key _ _).
      * pose proof (addKeyword_well_formed trim
                      (Keywords.target_value e) ed Hw) as Ha.
        destruct (Keywords._addKeyword _ _ _) as [ed1 c1].
        intros [= <- _]. exact Ha.
      * intros [= <- _]. exact Hw.
  - destruct (bool_decide _); [| discriminate].
    intros [= <- _]. apply removeKeyword_well_formed, Hw.
Qed.

Lemma keywords_editor_keeps_pills_distinct_witness :
  Keywords.well_formed
    (Keywords.mkEditor EmptyString ["alpha"; "beta"; "gamma"]).
Proof.
  apply (keywords_editor_keeps_pills_distinct
           Keywords.sample_trim
           (Keywords.KeyDown
              (Keywords.mkKeyEvent Keywords.ENTER false false false
                                   " gamma "))
           Keywords.sample_editor _ [Keywords.AddKeyword "gamma"]).
  - split.
    + apply NoDup_cons. split; [| apply NoDup_singleton].
      intros H. apply list_elem_of_singleton in H. discriminate H.
    + repeat constructor; discriminate.
  - reflexivity.
Defined.

(** X21.  Enter on a text whose trimmed form is new and not empty appends
    that form as the last pill, reports it once, and clears the field;
    Enter on the same text again changes nothing and reports nothing. *)
Theorem enter_adds_the_trimmed_keyword_once
    (trim : string → string) (e : Keywords.KeyEvent) (ed : Keywords.Editor) :
  Keywords.key e = Keywords.ENTER →
  trim (Keywords.target_value e) ≠ EmptyString →
  trim (Keywords.target_value e) ∉ Keywords.keywords ed →
  let k := trim (Keywords.target_value e) in
  Keywords.onKeyDown trim e ed
  = (Keywords.mkEditor EmptyString (Keywords.keywords ed ++ [k]),
     [Keywords.AddKeyword k])
  ∧ Keywords.onKeyDown trim e (Keywords.onKeyDown trim e ed).1
    = ((Keywords.onKeyDown trim e ed).1, []).
Proof.
  intros Hk Hne Hnew k.
  assert (E1 : Keywords.onKeyDown trim e ed
               = (Keywords.mkEditor EmptyString (Keywords.keywords ed ++ [k]),
                  [Keywords.AddKeyword k])).
  { unfold Keywords.onKeyDown, Keywords._addKeyword. rewrite Hk. cbn.
    fold k. destruct (is_empty k) eqn:He.
    { apply is_empty_true in He. contradiction. }
    rewrite bool_decide_eq_false_2 by exact Hnew. reflexivity. }
  split; [exact E1 |]. rewrite E1. cbn.
  unfold Keywords.onKeyDown, Keywords._addKeyword. rewrite Hk. cbn.
  fold k. destruct (is_empty k) eqn:He.
  { apply is_empty_true in He. contradiction. }
  rewrite bool_decide_eq_true_2; [reflexivity |].
  apply elem_of_app. right. apply list_elem_of_here.
Qed.

Lemma enter_adds_the_trimmed_keyword_once_witness :
  let e := Keywords.mkKeyEvent Keywords.ENTER false false false " gamma " in
  let k := Keywords.sample_trim (Keywords.target_value e) in
  Keywords.onKeyDown Keywords.sample_trim e Keywords.sample_editor
  = (Keywords.mkEditor EmptyString
       (Keywords.keywords Keywords.sample_editor ++ [k]),
     [Keywords.AddKeyword k])
  ∧ Keywords.onKeyDown Keywords.sample_trim e
      (Keywords.onKeyDown Keywords.sample_trim e Keywords.sample_editor).1
    = ((Keywords.onKeyDown Keywords.sample_trim e Keywords.sample_editor).1,
       []).
Proof.
  apply (enter_adds_the_trimmed_keyword_once Keywords.sample_trim
           (Keywords.mkKeyEvent Keywords.ENTER false false false " gamma ")
           Keywords.sample_editor).
  - reflexivity.
  - vm_compute. discriminate.
  - vm_compute. intros H.
    apply elem_of_cons in H as [H | H]; [discriminate H |].
    apply list_elem_of_singleton in H. discriminate H.
Defined.

(** X22.  Enter on a text that is blank after trimming, or whose trimmed
    form is a pill already, only clears the field. *)
Theorem enter_on_blank_or_known_text_only_clears
    (trim : string → string) (e : Keywords.KeyEvent) (ed : Keywords.Editor) :
  Keywords.key e = Keywords.ENTER →
  trim (Keywords.target_value e) = EmptyString
  ∨ trim (Keywords.target_value e) ∈ Keywords.keywords ed →
  Keywords.onKeyDown trim e ed
  = (Keywords.mkEditor EmptyString (Keywords.keywords ed), []).
Proof.
  intros Hk H. unfold Keywords.onKeyDown, Keywords._addKeyword.
  rewrite Hk. cbn.
  destruct H as [-> | Hin]; [reflexivity |].
  rewrite (bool_decide_eq_true_2 _ Hin), orb_true_r. reflexivity.
Qed.

Lemma enter_on_blank_or_known_text_only_clears_witness :
  Keywords.onKeyDown Keywords.sample_trim
    (Keywords.mkKeyEvent Keywords.ENTER false false false "beta  ")
    (Keywords.mkEditor "beta  " ["alpha"; "beta"])
  = (Keywords.mkEditor EmptyString
       (Keywords.keywords (Keywords.mkEditor "beta  " ["alpha"; "beta"])),
     []).
Proof.
  apply (enter_on_blank_or_known_text_only_clears Keywords.sample_trim
           (Keywords.mkKeyEvent Keywords.ENTER false false false "beta  ")
           (Keywords.mkEditor "beta  " ["alpha"; "beta"])).
  - reflexivity.
  - right. vm_compute. apply list_elem_of_further, list_elem_of_here.
Defined.

(** X23.  Backspace in the empty field, with no modifier held, removes
    the right-most pill and reports its removal. *)
Theorem backspace_removes_the_rightmost_pill
    (trim : string → string) (e : Keywords.KeyEvent)
    (l : list string) (k : string) :
  Keywords.key e = Keywords.BACKSPACE →
  Keywords.ctrlKey e = false →
  Keywords.shiftKey e = false →
  Keywords.metaKey e = false →
  NoDup (l ++ [k]) →
  Keywords.onKeyDown trim e (Keywords.mkEditor EmptyString (l ++ [k]))
  = (Keywords.mkEditor EmptyString l, [Keywords.RemoveKeyword k]).
Proof.
  intros Hk Hc Hs Hm Hn. unfold Keywords.onKeyDown, Keywords._removeKeyword.
  rewrite Hk, Hc, Hs, Hm. cbn -[Nat.ltb last].
  rewrite length_app, Nat.add_1_r. cbn -[last]. rewrite last_snoc.
  rewrite filter_neq_snoc; [reflexivity |].
  apply NoDup_app in Hn as (_ & Hd & _). intros Hin.
  apply (Hd k Hin), list_elem_of_here.
Qed.

Lemma backspace_removes_the_rightmost_pill_witness :
  Keywords.onKeyDown Keywords.sample_trim
    (Keywords.mkKeyEvent Keywords.BACKSPACE false false false EmptyString)
    (Keywords.mkEditor EmptyString (["alpha"] ++ ["beta"]))
  = (Keywords.mkEditor EmptyString ["alpha"],
     [Keywords.RemoveKeyword "beta"]).
Proof.
  apply (backspace_removes_the_rightmost_pill Keywords.sample_trim
           (Keywords.mkKeyEvent Keywords.BACKSPACE false false false
                                EmptyString)
           ["alpha"] "beta"); try reflexivity.
  apply NoDup_cons. split; [| apply NoDup_singleton].
  intros H. apply list_elem_of_singleton in H. discriminate H.
Defined.

(** X24.  Adding a keyword with Enter and then clicking the remove button
    of its pill gives the pills back as they were, and reports one
    addition and one removal of the trimmed keyword. *)
Theorem add_then_remove_restores_the_pills
    (trim : string → string) (e : Keywords.KeyEvent) (ed : Keywords.Editor) :
  Keywords.key e = Keywords.ENTER →
  trim (Keywords.target_value e) ≠ EmptyString →
  trim (Keywords.target_value e) ∉ Keywords.keywords ed →
  let k := trim (Keywords.target_value e) in
  ∃ ed1 ed2,
    Keywords.handle trim (Keywords.KeyDown e) ed
      = Some (ed1, [Keywords.AddKeyword k])
    ∧ Keywords.handle trim (Keywords.PillRemove k) ed1
      = Some (ed2, [Keywords.RemoveKeyword k])
    ∧ Keywords.keywords ed2 = Keywords.keywords ed.
Proof.
  intros Hk Hne Hnew k. cbn.
  unfold Keywords.onKeyDown, Keywords._addKeyword. rewrite Hk. cbn.
  fold k. destruct (is_empty k) eqn:He.
  { apply is_empty_true in He. contradiction. }
  rewrite bool_decide_eq_false_2 by exact Hnew. cbn.
  do 2 eexists. split; [reflexivity |]. cbn.
  rewrite bool_decide_eq_true_2
    by (apply elem_of_app; right; apply list_elem_of_here).
  split; [reflexivity |]. cbn. apply filter_neq_snoc, Hnew.
Qed.

Lemma add_then_remove_restores_the_pills_witness :
  let e := Keywords.mkKeyEvent Keywords.ENTER false false false " gamma " in
  let k := Keywords.sample_trim (Keywords.target_value e) in
  ∃ ed1 ed2,
    Keywords.handle Keywords.sample_trim (Keywords.KeyDown e)
                    Keywords.sample_editor
      = Some (ed1, [Keywords.AddKeyword k])
    ∧ Keywords.handle Keywords.sample_trim (Keywords.PillRemove k) ed1
      = Some (ed2, [Keywords.RemoveKeyword k])
    ∧ Keywords.keywords ed2 = Keywords.keywords Keywords.sample_editor.
Proof.
  apply (add_then_remove_restores_the_pills Keywords.sample_trim
           (Keywords.mkKeyEvent Keywords.ENTER false false false " gamma ")
           Keywords.sample_editor).
  - reflexivity.
  - vm_compute. discriminate.
  - vm_compute. intros H.
    apply elem_of_cons in H as [H | H]; [discriminate H |].
    apply list_elem_of_singleton in H. discriminate H.
Defined.

(** X25.  Leaving the field with text in it bypasses the checks of Enter:
    for a text that Enter would drop as blank or as a duplicate, [onBlur]
    still hands the untrimmed text to [addKeyword], and it shows no pill
    for it. *)
Theorem blur_bypasses_the_checks_of_enter
    (trim : string → string) (e : Keywords.KeyEvent) (ed : Keywords.Editor) :
  Keywords.key e = Keywords.ENTER →
  Keywords.value ed ≠ EmptyString →
  trim (Keywords.target_value e) = EmptyString
  ∨ trim (Keywords.target_value e) ∈ Keywords.keywords ed →
  (Keywords.onKeyDown trim e ed).2 = []
  ∧ Keywords.onBlur (Keywords.target_value e) ed
    = (Keywords.mkEditor EmptyString (Keywords.keywords ed),
       [Keywords.AddKeyword (Keywords.target_value e)]).
Proof.
  intros Hk Hv H. split.
  - unfold Keywords.onKeyDown, Keywords._addKeyword. rewrite Hk. cbn.
    destruct (is_empty (Keywords.value ed)); cbn.
    all: destruct H as [-> | Hin]; [reflexivity |].
    all: rewrite (bool_decide_eq_true_2 _ Hin), orb_true_r; reflexivity.
  - unfold Keywords.onBlur. destruct (is_empty (Keywords.value ed)) eqn:He.
    { apply is_empty_true in He. contradiction. }
    reflexivity.
Qed.

Lemma blur_bypasses_the_checks_of_enter_witness :
  (Keywords.onKeyDown Keywords.sample_trim
     (Keywords.mkKeyEvent Keywords.ENTER false false false "beta  ")
     (Keywords.mkEditor "beta  " ["alpha"; "beta"])).2 = []
  ∧ Keywords.onBlur
      (Keywords.target_value
         (Keywords.mkKeyEvent Keywords.ENTER false false false "beta  "))
      (Keywords.mkEditor "beta  " ["alpha"; "beta"])
    = (Keywords.mkEditor EmptyString
         (Keywords.keywords (Keywords.mkEditor "beta  " ["alpha"; "beta"])),
       [Keywords.AddKeyword
          (Keywords.target_value
             (Keywords.mkKeyEvent Keywords.ENTER false false false
                                  "beta  "))]).
Proof.
  apply (blur_bypasses_the_checks_of_enter Keywords.sample_trim
           (Keywords.mkKeyEvent Keywords.ENTER false false false "beta  ")
           (Keywords.mkEditor "beta  " ["alpha"; "beta"])).
  - reflexivity.
  - discriminate.
  - right. vm_compute. apply list_elem_of_further, list_elem_of_here.
Defined.

(** ** The keywords of the section *)

Lemma elem_of_dedupe_from (seen l : list string) (x : string) :
  x ∈ Keywords.dedupe_from seen l ↔ x ∈ l ∧ x ∉ seen.
Proof.
  revert seen. induction l as [| y l IH]; intros seen; cbn.
  - split; [intros H; inversion H | intros [H _]; inversion H].
  - destruct (bool_decide (y ∈ seen)) eqn:Hy.
    + apply bool_decide_eq_true_1 in Hy. rewrite IH, elem_of_cons.
      split; [tauto |]. intros [[-> | H] Hs]; [contradiction | tauto].
    + apply bool_decide_eq_false_1 in Hy.
      rewrite elem_of_cons, IH, not_elem_of_cons, elem_of_cons.
      split.
      * intros [-> | (H & Hn & Hs)]; tauto.
      * intros [[-> | H] Hs]; [tauto |].
        destruct (decide (x = y)) as [-> | Hne]; tauto.
Qed.

Lemma NoDup_dedupe_from (seen l : list string) :
  NoDup (Keywords.dedupe_from seen l).
Proof.
  revert seen. induction l as [| y l IH]; intros seen; cbn.
  - constructor.
  - destruct (bool_decide (y ∈ seen)); [apply IH |].
    apply NoDup_cons. split; [| apply IH].
    rewrite elem_of_dedupe_from, not_elem_of_cons. tauto.
Qed.

(** X26.  With a sort that only reorders, the keywords handed to the
    editor are distinct, and they are exactly the patterns of the rules,
    of the enabled rules only when keywords are switched on. *)
Theorem section_keywords_are_the_distinct_patterns
    (sort : list string → list string)
    (rules : list Keywords.Rule) (keywordsEnabled : bool) (k : string) :
  (∀ l, sort l ≡ₚ l) →
  NoDup (Keywords.section_keywords sort rules keywordsEnabled)
  ∧ (k ∈ Keywords.section_keywords sort rules keywordsEnabled ↔
     ∃ r, r ∈ rules ∧ Keywords.pattern r = k
          ∧ (keywordsEnabled = true → Keywords.enabled r = true)).
Proof.
  intros Hsort. unfold Keywords.section_keywords, Keywords.dedupe.
  set (rs := if keywordsEnabled then filter _ rules else rules).
  set (ks := Keywords.dedupe_from [] (map Keywords.pattern rs)).
  assert (Hks : ∀ x, x ∈ (if 0 <? length ks then sort ks else ks) ↔ x ∈ ks).
  { intros x. destruct (0 <? length ks); [rewrite Hsort |]; reflexivity. }
  split.
  - destruct (0 <? length ks); [rewrite Hsort |];
      apply NoDup_dedupe_from.
  - rewrite Hks. unfold ks. rewrite elem_of_dedupe_from.
    rewrite list_elem_of_fmap. unfold rs. split.
    + intros [(r & -> & Hr) _]. exists r.
      destruct keywordsEnabled.
      * apply list_elem_of_filter in Hr as [He Hr]. auto.
      * split; [exact Hr |]. split; [reflexivity | discriminate].
    + intros (r & Hr & <- & He). split; [| apply not_elem_of_nil].
      exists r. split; [reflexivity |].
      destruct keywordsEnabled; [| exact Hr].
      apply list_elem_of_filter. auto.
Qed.

Lemma section_keywords_are_the_distinct_patterns_witness :
  NoDup (Keywords.section_keywords reverse Keywords.sample_rules true)
  ∧ ("alpha" ∈ Keywords.section_keywords reverse Keywords.sample_rules true ↔
     ∃ r, r ∈ Keywords.sample_rules ∧ Keywords.pattern r = "alpha"
          ∧ (true = true → Keywords.enabled r = true)).
Proof.
  apply (section_keywords_are_the_distinct_patterns
           reverse Keywords.sample_rules true "alpha").
  intros l. apply reverse_Permutation.
Defined.

(** X27.  Toggling the checkbox always tells the parent, and updates the
    rules on the server exactly when there is a rule to update: none when
    there is no rule, or when keywords are on and no rule is enabled. *)
Theorem keywords_toggle_updates_rules_only_when_there_are_some
    (sort : list string → list string)
    (rules : list Keywords.Rule)
    (keywordsEnabled soundEnabled checked : bool) :
  (∀ l, sort l ≡ₚ l) →
  Keywords.onKeywordsEnabledChange sort rules keywordsEnabled soundEnabled
                                   checked
  = Keywords.SetKeywordsEnabled checked ::
    match (if keywordsEnabled
           then filter (λ r, Keywords.enabled r = true) rules
           else rules) with
    | [] => []
    | _ :: _ => [Keywords.UpdateContentRules checked soundEnabled]
    end.
Proof.
  intros Hsort.
  unfold Keywords.onKeywordsEnabledChange, Keywords.section_keywords,
    Keywords.dedupe.
  set (rs := if keywordsEnabled then filter _ rules else rules).
  f_equal. destruct rs as [| r rs']; [reflexivity |].
  cbn [map Keywords.dedupe_from]. rewrite bool_decide_eq_false_2
    by apply not_elem_of_nil.
  cbn. rewrite (Permutation_length (Hsort _)). reflexivity.
Qed.

Lemma keywords_toggle_updates_rules_only_when_there_are_some_witness :
  Keywords.onKeywordsEnabledChange reverse
    [Keywords.mkRule "gamma" false] true false false
  = Keywords.SetKeywordsEnabled false ::
    match (if true
           then filter (λ r, Keywords.enabled r = true)
                       [Keywords.mkRule "gamma" false]
           else [Keywords.mkRule "gamma" false]) with
    | [] => []
    | _ :: _ => [Keywords.UpdateContentRules false false]
    end.
Proof.
  apply (keywords_toggle_updates_rules_only_when_there_are_some
           reverse [Keywords.mkRule "gamma" false] true false false).
  intros l. apply reverse_Permutation.
Defined.

(** ** Saving the profile *)

(** X28.  Saving a changed display name, with no avatar file chosen:
    the name is sent once and the button is disabled at once, so a second
    click while the call is in flight does nothing; when the call
    resolves the name counts as saved; when it rejects nothing handles
    the rejection and the state stays as the click left it, the button
    disabled and the name unsaved. *)
Theorem save_sends_a_changed_name_once
    (mxcUrlToHttp : string → string) (s : ProfileSettings.State)
    (v : string) (e : Error) :
  ProfileSettings.enableProfileSave s = true →
  ProfileSettings.originalDisplayName s ≠ ProfileSettings.displayName s →
  ProfileSettings.avatarFile s = None →
  ∃ s0 s1,
    ProfileSettings._saveProfile mxcUrlToHttp s
    = (s0, [ProfileSettings.SetDisplayName (ProfileSettings.displayName s)],
       Some ProfileSettings.AwaitSetDisplayName)
    ∧ ProfileSettings.enableProfileSave s0 = false
    ∧ ProfileSettings._saveProfile mxcUrlToHttp s0 = (s0, [], None)
    ∧ ProfileSettings.resume mxcUrlToHttp
        ProfileSettings.AwaitSetDisplayName (inr v) s0 = (s1, [], None)
    ∧ ProfileSettings.originalDisplayName s1 = ProfileSettings.displayName s
    ∧ ProfileSettings.displayName s1 = ProfileSettings.displayName s
    ∧ ProfileSettings.enableProfileSave s1 = false
    ∧ ProfileSettings.resume mxcUrlToHttp
        ProfileSettings.AwaitSetDisplayName (inl e) s0
      = (s0, [ProfileSettings.Unhandled e], None)
    ∧ ProfileSettings.originalDisplayName s0
      = ProfileSettings.originalDisplayName s.
Proof.
  intros He Hn Hf. destruct s as [uid odn dn oau au af en].
  cbn in *. subst.
  unfold ProfileSettings._saveProfile, ProfileSettings.resume,
    ProfileSettings.save_avatar. cbn.
  rewrite bool_decide_eq_true_2 by exact Hn.
  do 2 eexists. repeat split.
Qed.

Lemma save_sends_a_changed_name_once_witness :
  ∃ s0 s1,
    ProfileSettings._saveProfile id
      (ProfileSettings._onDisplayNameChanged "Alice B."
         ProfileSettings.sample_state)
    = (s0,
       [ProfileSettings.SetDisplayName
          (ProfileSettings.displayName
             (ProfileSettings._onDisplayNameChanged "Alice B."
                ProfileSettings.sample_state))],
       Some ProfileSettings.AwaitSetDisplayName)
    ∧ ProfileSettings.enableProfileSave s0 = false
    ∧ ProfileSettings._saveProfile id s0 = (s0, [], None)
    ∧ ProfileSettings.resume id
        ProfileSettings.AwaitSetDisplayName (inr EmptyString) s0
      = (s1, [], None)
    ∧ ProfileSettings.originalDisplayName s1
      = ProfileSettings.displayName
          (ProfileSettings._onDisplayNameChanged "Alice B."
             ProfileSettings.sample_state)
    ∧ ProfileSettings.displayName s1
      = ProfileSettings.displayName
          (ProfileSettings._onDisplayNameChanged "Alice B."
             ProfileSettings.sample_state)
    ∧ ProfileSettings.enableProfileSave s1 = false
    ∧ ProfileSettings.resume id
        ProfileSettings.AwaitSetDisplayName (inl TypeError) s0
      = (s0, [ProfileSettings.Unhandled TypeError], None)
    ∧ ProfileSettings.originalDisplayName s0
      = ProfileSettings.originalDisplayName
          (ProfileSettings._onDisplayNameChanged "Alice B."
             ProfileSettings.sample_state).
Proof.
  apply (save_sends_a_changed_name_once id
           (ProfileSettings._onDisplayNameChanged "Alice B."
              ProfileSettings.sample_state)
           EmptyString TypeError).
  - reflexivity.
  - discriminate.
  - reflexivity.
Defined.

(** X29.  A display name typed while [setDisplayName] is in flight is
    taken for the saved one when the call resolves (line 287 reads
    [this.state] after the [await]): the next save sends nothing, and the
    name the user sees was never given to the client. *)
Theorem name_edited_during_save_is_never_sent
    (mxcUrlToHttp : string → string) (s : ProfileSettings.State)
    (b v : string) :
  ProfileSettings.enableProfileSave s = true →
  ProfileSettings.originalDisplayName s ≠ ProfileSettings.displayName s →
  ProfileSettings.avatarFile s = None →
  ProfileSettings.displayName s ≠ Some b →
  ∃ s0 s1,
    ProfileSettings._saveProfile mxcUrlToHttp s
    = (s0, [ProfileSettings.SetDisplayName (ProfileSettings.displayName s)],
       Some ProfileSettings.AwaitSetDisplayName)
    ∧ ProfileSettings.resume mxcUrlToHttp
        ProfileSettings.AwaitSetDisplayName (inr v)
        (ProfileSettings._onDisplayNameChanged b s0)
      = (s1, [], None)
    ∧ ProfileSettings.displayName s1 = Some b
    ∧ ProfileSettings.originalDisplayName s1 = Some b
    ∧ ProfileSettings.enableProfileSave s1 = true
    ∧ (ProfileSettings._saveProfile mxcUrlToHttp s1).1.2 = []
    ∧ (ProfileSettings._saveProfile mxcUrlToHttp s1).2 = None.
Proof.
  intros He Hn Hf Hb. destruct s as [uid odn dn oau au af en].
  cbn in *. subst.
  unfold ProfileSettings._saveProfile, ProfileSettings.resume,
    ProfileSettings.save_avatar. cbn.
  rewrite bool_decide_eq_true_2 by exact Hn.
  do 2 eexists. split; [reflexivity |]. split; [reflexivity |]. cbn.
  rewrite bool_decide_eq_false_2 by (intros H; apply H; reflexivity).
  repeat split.
Qed.

Lemma name_edited_during_save_is_never_sent_witness :
  ∃ s0 s1,
    ProfileSettings._saveProfile id
      (ProfileSettings._onDisplayNameChanged "Alice B."
         ProfileSettings.sample_state)
    = (s0,
       [ProfileSettings.SetDisplayName
          (ProfileSettings.displayName
             (ProfileSettings._onDisplayNameChanged "Alice B."
                ProfileSettings.sample_state))],
       Some ProfileSettings.AwaitSetDisplayName)
    ∧ ProfileSettings.resume id
        ProfileSettings.AwaitSetDisplayName (inr EmptyString)
        (ProfileSettings._onDisplayNameChanged "Alice C." s0)
      = (s1, [], None)
    ∧ ProfileSettings.displayName s1 = Some "Alice C."
    ∧ ProfileSettings.originalDisplayName s1 = Some "Alice C."
    ∧ ProfileSettings.enableProfileSave s1 = true
    ∧ (ProfileSettings._saveProfile id s1).1.2 = []
    ∧ (ProfileSettings._saveProfile id s1).2 = None.
Proof.
  apply (name_edited_during_save_is_never_sent id
           (ProfileSettings._onDisplayNameChanged "Alice B."
              ProfileSettings.sample_state)
           "Alice C." EmptyString).
  - reflexivity.
  - discriminate.
  - reflexivity.
  - discriminate.
Defined.

(** X30.  Closing the file dialog without a file disables Save even when
    a changed display name is waiting: the name stays in the field, but
    Save does nothing until something else is edited. *)
Theorem cancelled_file_dialog_blocks_a_pending_name
    (mxcUrlToHttp : string → string) (s : ProfileSettings.State)
    (v : string) :
  ProfileSettings.originalDisplayName s ≠ Some v →
  let s' :=
    ProfileSettings._onAvatarChanged_none
      (ProfileSettings._onDisplayNameChanged v s) in
  ProfileSettings.displayName s' = Some v
  ∧ ProfileSettings.originalDisplayName s' ≠ ProfileSettings.displayName s'
  ∧ ProfileSettings.avatarUrl s' = ProfileSettings.originalAvatarUrl s
  ∧ ProfileSettings._saveProfile mxcUrlToHttp s' = (s', [], None)
  ∧ ∃ s0,
      ProfileSettings._saveProfile mxcUrlToHttp
        (ProfileSettings._onDisplayNameChanged v s')
      = (s0, [ProfileSettings.SetDisplayName (Some v)],
         Some ProfileSettings.AwaitSetDisplayName).
Proof.
  intros Hn s'. subst s'. destruct s as [uid odn dn oau au af en].
  cbn in *. repeat split; [exact Hn |].
  unfold ProfileSettings._saveProfile. cbn.
  rewrite bool_decide_eq_true_2 by exact Hn.
  eexists. reflexivity.
Qed.

Lemma cancelled_file_dialog_blocks_a_pending_name_witness :
  let s' :=
    ProfileSettings._onAvatarChanged_none
      (ProfileSettings._onDisplayNameChanged "Alice B."
         ProfileSettings.sample_state) in
  ProfileSettings.displayName s' = Some "Alice B."
  ∧ ProfileSettings.originalDisplayName s' ≠ ProfileSettings.displayName s'
  ∧ ProfileSettings.avatarUrl s'
    = ProfileSettings.originalAvatarUrl ProfileSettings.sample_state
  ∧ ProfileSettings._saveProfile id s' = (s', [], None)
  ∧ ∃ s0,
      ProfileSettings._saveProfile id
        (ProfileSettings._onDisplayNameChanged "Alice B." s')
      = (s0, [ProfileSettings.SetDisplayName (Some "Alice B.")],
         Some ProfileSettings.AwaitSetDisplayName).
Proof.
  apply (cancelled_file_dialog_blocks_a_pending_name id
           ProfileSettings.sample_state "Alice B.").
  discriminate.
Defined.
